(** * emailmonitor: the rule-driven classifier and the latest-reply extractor

    A shallow embedding of [email_jbhunt_prep.py] (vendor scoring, subject
    classification, identifier extraction, stamp location, reply necessity)
    and of the MIME walk of [temp.py] ([_decode_base64url],
    [find_email_parts], [extract_latest_reply]).

    Conventions.
    - A Python [str] is a [string] whose characters are code points below
      256; [lower], [isspace] and the regular-expression classes follow
      CPython's tables on that range.
    - A regular expression is its syntax tree ([Re.regex]); the matcher is a
      backtracking matcher with the search loop of CPython's [re] module.
    - Standard-library calls this repository only invokes (entity
      replacement of [html.unescape], [urlparse(u).hostname], the base64
      codecs, UTF-8 decoding, BeautifulSoup) are the fields of [PyLib].
    - Integers are [Z]; the fraction of [stamp_position] is an exact
      rational.  CPython computes it in binary64, which gives the same
      comparisons against 0.2 and 0.7 for every text shorter than 10^15
      characters. *)

From Stdlib Require Import String Ascii List Bool Arith ZArith QArith Lia.
From ExtLib Require Import Structures.Monad Structures.MonadExc
  Data.Monads.EitherMonad.
Import ListNotations.
Import MonadNotation.

Local Close Scope Q_scope.
Local Open Scope string_scope.
Local Open Scope bool_scope.
Local Open Scope nat_scope.
Local Open Scope monad_scope.

(* ------------------------------------------------------------------ *)
(** ** Python strings *)

Module PyStr.

Definition code (c : ascii) : nat := nat_of_ascii c.

Definition in_range (lo hi : nat) (c : ascii) : bool :=
  (lo <=? code c)%nat && (code c <=? hi)%nat.

(** [str.isspace] on one character, which is also the class [\s]. *)
Definition is_space (c : ascii) : bool :=
  in_range 9 13 c || in_range 28 32 c
  || (code c =? 133)%nat || (code c =? 160)%nat.

(** The class [\d]: decimal digits. *)
Definition is_digit (c : ascii) : bool := in_range 48 57 c.

Definition is_ascii_alpha (c : ascii) : bool :=
  in_range 65 90 c || in_range 97 122 c.

Definition is_hex (c : ascii) : bool :=
  is_digit c || in_range 65 70 c || in_range 97 102 c.

Definition lower_char (c : ascii) : ascii :=
  if in_range 65 90 c
     || (in_range 192 222 c && negb (code c =? 215)%nat)
  then ascii_of_nat (code c + 32) else c.

Definition upper_char (c : ascii) : ascii :=
  if in_range 97 122 c
     || (in_range 224 254 c && negb (code c =? 247)%nat)
  then ascii_of_nat (code c - 32) else c.

(** [s.lower()] *)
Fixpoint lower (s : string) : string :=
  match s with
  | EmptyString => EmptyString
  | String c tl => String (lower_char c) (lower tl)
  end.

(** [bool(s)] *)
Definition truthy (s : string) : bool :=
  match s with EmptyString => false | String _ _ => true end.

(** [x or ""] for an optional string. *)
Definition or_empty (x : option string) : string :=
  match x with Some s => s | None => "" end.

(** [a or b] on strings. *)
Definition str_or (a b : string) : string := if truthy a then a else b.

(** [hay.startswith(needle)] *)
Fixpoint startswith (hay needle : string) : bool :=
  match needle, hay with
  | EmptyString, _ => true
  | String _ _, EmptyString => false
  | String a n', String b h' => Ascii.eqb a b && startswith h' n'
  end.

(** [needle in hay] *)
Fixpoint contains (needle hay : string) : bool :=
  startswith hay needle
  || match hay with
     | EmptyString => false
     | String _ tl => contains needle tl
     end.

Definition drop (n : nat) (s : string) : string :=
  substring n (String.length s - n) s.

(** [s.endswith(suffix)] *)
Definition endswith (s suffix : string) : bool :=
  (String.length suffix <=? String.length s)%nat
  && String.eqb (drop (String.length s - String.length suffix) s) suffix.

(** [hay.rfind(needle)], the search starting at offset [i]: the highest
    index of an occurrence, or [-1]. *)
Fixpoint rfind_from (needle hay : string) (i : Z) : Z :=
  match hay with
  | EmptyString => if startswith hay needle then i else (-1)%Z
  | String _ tl =>
      let r := rfind_from needle tl (i + 1)%Z in
      if (0 <=? r)%Z then r
      else if startswith hay needle then i else (-1)%Z
  end.

Definition rfind (hay needle : string) : Z := rfind_from needle hay 0%Z.

Fixpoint lstrip_by (p : ascii -> bool) (s : string) : string :=
  match s with
  | EmptyString => EmptyString
  | String c tl => if p c then lstrip_by p tl else s
  end.

Fixpoint rstrip_by (p : ascii -> bool) (s : string) : string :=
  match s with
  | EmptyString => EmptyString
  | String c tl =>
      match rstrip_by p tl with
      | EmptyString => if p c then EmptyString else String c EmptyString
      | r => String c r
      end
  end.

(** [s.strip()] *)
Definition strip (s : string) : string :=
  rstrip_by is_space (lstrip_by is_space s).

Fixpoint mem_char (c : ascii) (chars : string) : bool :=
  match chars with
  | EmptyString => false
  | String d tl => Ascii.eqb c d || mem_char c tl
  end.

(** [s.rstrip(chars)] *)
Definition rstrip_chars (chars s : string) : string :=
  rstrip_by (fun c => mem_char c chars) s.

(** [c * n] for a one-character string. *)
Fixpoint replicate (n : nat) (c : ascii) : string :=
  match n with
  | O => EmptyString
  | S k => String c (replicate k c)
  end.

(** [x in tup] for a tuple of strings. *)
Definition mem (x : string) (tup : list string) : bool :=
  existsb (String.eqb x) tup.

(** [list(dict.fromkeys(xs))]: duplicates removed, first occurrence
    kept, order kept. *)
Fixpoint dedupe_acc (seen xs : list string) : list string :=
  match xs with
  | [] => []
  | x :: tl =>
      if mem x seen then dedupe_acc seen tl
      else x :: dedupe_acc (x :: seen) tl
  end.

Definition dedupe (xs : list string) : list string := dedupe_acc [] xs.

(** *** Notions the statements about strings use *)

(** The character [c] occurs in [s]. *)
Fixpoint has_char (c : ascii) (s : string) : bool :=
  match s with
  | EmptyString => false
  | String d tl => Ascii.eqb d c || has_char c tl
  end.

(** [needle] occurs in [hay] at index [i]. *)
Fixpoint occurs_at (i : nat) (hay needle : string) : bool :=
  match i, hay with
  | O, _ => startswith hay needle
  | S k, String _ tl => occurs_at k tl needle
  | S _, EmptyString => false
  end.

(** [i] is the index of the last occurrence of [needle] in [hay]. *)
Definition last_occurrence (hay needle : string) (i : nat) : Prop :=
  occurs_at i hay needle = true
  /\ forall j, i < j -> occurs_at j hay needle = false.

(** Runs of whitespace replaced by one space; [in_run] says that the
    character before was whitespace. *)
Fixpoint squeeze (in_run : bool) (s : string) : string :=
  match s with
  | EmptyString => EmptyString
  | String c tl =>
      if is_space c
      then if in_run then squeeze true tl else String " " (squeeze true tl)
      else String c (squeeze false tl)
  end.

(** Every whitespace character is a single space between two others. *)
Fixpoint tidy (prev_space : bool) (s : string) : bool :=
  match s with
  | EmptyString => true
  | String c tl =>
      if is_space c
      then Ascii.eqb c " " && negb prev_space && tidy true tl
      else tidy false tl
  end.

(** [s] is empty or begins with a character outside [p]. *)
Definition clean_head (p : ascii -> bool) (s : string) : Prop :=
  match s with
  | EmptyString => True
  | String c _ => p c = false
  end.

(** [s'] is what is left of [s] after some prefix. *)
Definition suffix_of (s' s : string) : Prop := exists p, s = p ++ s'.

End PyStr.
Import PyStr.

(* ------------------------------------------------------------------ *)
(** ** Regular expressions: the part of Python's [re] the program uses *)

Module Re.

Record flags := { ignorecase : bool; dotall : bool }.

Definition no_flags : flags := {| ignorecase := false; dotall := false |}.
Definition flag_i : flags := {| ignorecase := true; dotall := false |}.
Definition flag_is : flags := {| ignorecase := true; dotall := true |}.

Inductive regex : Type :=
| Eps
| Chr (c : ascii)
| Any
| Cls (negated : bool) (p : ascii -> bool)
| Seq (r1 r2 : regex)
| Alt (r1 r2 : regex)
| Star (greedy : bool) (r : regex)
| Group (n : nat) (r : regex)
| Backref (n : nat).

(** [r+], [r?], [r{n}], [r{n,}] and a literal word. *)
Definition Plus (r : regex) : regex := Seq r (Star true r).
Definition Opt (r : regex) : regex := Alt r Eps.

Fixpoint Rep (n : nat) (r : regex) : regex :=
  match n with
  | O => Eps
  | S k => Seq r (Rep k r)
  end.

Definition AtLeast (n : nat) (r : regex) : regex :=
  Seq (Rep n r) (Star true r).

(** [r{0,n}] *)
Fixpoint UpTo (n : nat) (r : regex) : regex :=
  match n with
  | O => Eps
  | S k => Opt (Seq r (UpTo k r))
  end.

(** A sequence of pieces. *)
Definition Cat (l : list regex) : regex := fold_right Seq Eps l.

Fixpoint Lit (w : string) : regex :=
  match w with
  | EmptyString => Eps
  | String c tl => Seq (Chr c) (Lit tl)
  end.

(** Number of capturing groups: the highest group index. *)
Fixpoint ngroups (r : regex) : nat :=
  match r with
  | Seq a b | Alt a b => Nat.max (ngroups a) (ngroups b)
  | Star _ a => ngroups a
  | Group n a => Nat.max n (ngroups a)
  | _ => O
  end.

(** Captures, newest binding first. *)
Definition caps := list (nat * string).

Fixpoint cap (n : nat) (cs : caps) : option string :=
  match cs with
  | [] => None
  | (k, v) :: tl => if (k =? n)%nat then Some v else cap n tl
  end.

(** [m.group(n)] of a successful match; a group that did not take part
    is [None] in Python and printed as the empty string by [findall]. *)
Definition group (n : nat) (cs : caps) : string := or_empty (cap n cs).

Definition chr_eq (f : flags) (a b : ascii) : bool :=
  if ignorecase f then Ascii.eqb (lower_char a) (lower_char b)
  else Ascii.eqb a b.

Definition cls_hit (f : flags) (negated : bool) (p : ascii -> bool)
           (c : ascii) : bool :=
  xorb negated
       (if ignorecase f
        then p (lower_char c) || p (upper_char (lower_char c))
        else p c).

Definition any_hit (f : flags) (c : ascii) : bool :=
  dotall f || negb (code c =? 10)%nat.

(** The text consumed between the suffix [s] and its suffix [s']. *)
Definition consumed (s s' : string) : string :=
  substring 0 (String.length s - String.length s') s.

(** Consume the literal [w] (a back-reference's text). *)
Fixpoint eat (f : flags) (w s : string) : option string :=
  match w, s with
  | EmptyString, _ => Some s
  | String _ _, EmptyString => None
  | String a w', String b s' => if chr_eq f a b then eat f w' s' else None
  end.

Definition orelse {A} (x y : option A) : option A :=
  match x with Some _ => x | None => y end.

Section Matcher.
Variable f : flags.
Variable A : Type.

Definition cont : Type := string -> caps -> option A.

(** The repetition of [body]: at most [fuel] iterations, each of which
    must consume something; a greedy repetition tries one more
    iteration before it tries to go on, a lazy one the other way
    round. *)
Fixpoint star_loop (body : string -> caps -> cont -> option A)
         (greedy : bool) (k : cont) (fuel : nat)
         (s0 : string) (cs0 : caps) {struct fuel} : option A :=
  match fuel with
  | O => k s0 cs0
  | S fuel' =>
      let again :=
        body s0 cs0
             (fun s1 cs1 =>
                if (String.length s1 <? String.length s0)%nat
                then star_loop body greedy k fuel' s1 cs1 else None) in
      if greedy then orelse again (k s0 cs0)
      else orelse (k s0 cs0) again
  end.

(** [go r s cs k]: match [r] at the head of [s], with the captures
    [cs], and hand what is left to the continuation [k]; the first
    alternative that lets [k] succeed wins, as in a backtracking
    matcher. *)
Fixpoint go (r : regex) (s : string) (cs : caps) (k : cont)
         {struct r} : option A :=
  match r with
  | Eps => k s cs
  | Chr c =>
      match s with
      | String d tl => if chr_eq f c d then k tl cs else None
      | EmptyString => None
      end
  | Any =>
      match s with
      | String d tl => if any_hit f d then k tl cs else None
      | EmptyString => None
      end
  | Cls neg p =>
      match s with
      | String d tl => if cls_hit f neg p d then k tl cs else None
      | EmptyString => None
      end
  | Seq r1 r2 => go r1 s cs (fun s1 cs1 => go r2 s1 cs1 k)
  | Alt r1 r2 => orelse (go r1 s cs k) (go r2 s cs k)
  | Star greedy r1 =>
      star_loop (go r1) greedy k (String.length s) s cs
  | Group n r1 =>
      go r1 s cs (fun s1 cs1 => k s1 ((n, consumed s s1) :: cs1))
  | Backref n =>
      match cap n cs with
      | Some w =>
          match eat f w s with
          | Some s1 => k s1 cs
          | None => None
          end
      | None => None
      end
  end.
End Matcher.

(** The final continuation: [must_advance] refuses an empty match. *)
Definition accept (must_advance : bool) (s : string)
           (s' : string) (cs : caps) : option (string * caps) :=
  if must_advance && (String.length s' =? String.length s)%nat
  then None else Some (s', cs).

(** [match_at]: a match anchored at the head of [s]. *)
Definition match_at (f : flags) (r : regex) (must_advance : bool)
           (s : string) : option (string * caps) :=
  go f (string * caps) r s [] (accept must_advance s).

Record hit := {
  h_pre : string;    (* text skipped before the match *)
  h_text : string;   (* [m.group(0)] *)
  h_rest : string;   (* text after the match *)
  h_caps : caps
}.

(** The search loop: try the start position, then every later one;
    [must_advance] only constrains the first attempt. *)
Fixpoint search_from (f : flags) (r : regex) (must_advance : bool)
         (s : string) : option hit :=
  match match_at f r must_advance s with
  | Some (s', cs) =>
      Some {| h_pre := ""; h_text := consumed s s';
              h_rest := s'; h_caps := cs |}
  | None =>
      match s with
      | EmptyString => None
      | String c tl =>
          match search_from f r false tl with
          | Some h =>
              Some {| h_pre := String c (h_pre h); h_text := h_text h;
                      h_rest := h_rest h; h_caps := h_caps h |}
          | None => None
          end
      end
  end.

(** [re.search(r, s, flags)] *)
Definition search (f : flags) (r : regex) (s : string) : option hit :=
  search_from f r false s.

Definition is_empty (s : string) : bool := negb (truthy s).

(** The iteration shared by [findall], [sub] and [split]: each search
    resumes where the last match ended, and after an empty match the
    next one must advance.  Returns the matches and the unmatched tail. *)
Fixpoint scan (fuel : nat) (f : flags) (r : regex) (must_advance : bool)
         (s : string) : list hit * string :=
  match fuel with
  | O => ([], s)
  | S fuel' =>
      match search_from f r must_advance s with
      | None => ([], s)
      | Some h =>
          let (hs, tl) :=
            scan fuel' f r (is_empty (h_text h)) (h_rest h) in
          (h :: hs, tl)
      end
  end.

Definition finditer (f : flags) (r : regex) (s : string)
  : list hit * string :=
  scan (2 * String.length s + 2) f r false s.

(** An element of the list [findall] returns: the whole match when the
    pattern has no group, the group when it has one, the tuple of the
    groups otherwise. *)
Inductive item : Type :=
| Str (s : string)
| Tup (l : list string).

Definition item_of (r : regex) (h : hit) : item :=
  match ngroups r with
  | O => Str (h_text h)
  | 1 => Str (group 1 (h_caps h))
  | n => Tup (map (fun i => group i (h_caps h)) (seq 1 n))
  end.

(** [re.findall(r, s, flags)] *)
Definition findall (f : flags) (r : regex) (s : string) : list item :=
  map (item_of r) (fst (finditer f r s)).

Definition item_str (i : item) : string :=
  match i with Str s => s | Tup l => String.concat "" l end.

(** [findall] for a pattern with exactly one group. *)
Definition findall1 (f : flags) (r : regex) (s : string) : list string :=
  map (fun h => group 1 (h_caps h)) (fst (finditer f r s)).

(** [re.sub(r, repl, s)] for a callable replacement [repl]. *)
Definition sub_with (f : flags) (r : regex) (repl : hit -> string)
           (s : string) : string :=
  let (hs, tl) := finditer f r s in
  String.concat "" (map (fun h => h_pre h ++ repl h) hs) ++ tl.

(** [re.sub(r, repl, s)] for a replacement text without group
    references. *)
Definition sub (f : flags) (r : regex) (repl s : string) : string :=
  sub_with f r (fun _ => repl) s.

(** [re.split(r, s, 1)[0]] for a pattern without groups. *)
Definition split1_head (f : flags) (r : regex) (s : string) : string :=
  match search f r s with
  | Some h => h_pre h
  | None => s
  end.

(** *** Notions the statements about matching use *)

(** Whatever a matcher returns, its continuation returned it on some
    suffix of the input. *)
Definition hands_suffix {A : Type}
           (body : string -> caps -> cont A -> option A) : Prop :=
  forall s cs k res,
    body s cs k = Some res ->
    exists s' cs', suffix_of s' s /\ k s' cs' = Some res.

(** The matches of [findall]: each one is the first match from where the
    last one ended, and none is left after the last. *)
Inductive chain (f : flags) (r : regex)
  : bool -> string -> list hit -> string -> Prop :=
| chain_done adv s :
    search_from f r adv s = None -> chain f r adv s [] s
| chain_step adv s h hs tl :
    search_from f r adv s = Some h ->
    chain f r (is_empty (h_text h)) (h_rest h) hs tl ->
    chain f r adv s (h :: hs) tl.

(** No match of [r] starts inside [pre], which is followed by [after]. *)
Definition none_inside (f : flags) (r : regex) (adv : bool)
           (pre after : string) : Prop :=
  forall a c b,
    pre = a ++ String c b ->
    match_at f r (adv && is_empty a) (String c b ++ after) = None.

(** A hit is a match where it stands, and the first one from where the
    search began. *)
Definition first_match (f : flags) (r : regex) (h : hit) : Prop :=
  (exists adv, match_at f r adv (h_text h ++ h_rest h)
               = Some (h_rest h, h_caps h))
  /\ exists adv, none_inside f r adv (h_pre h) (h_text h ++ h_rest h).

(** The pattern begins with the literal [<]. *)
Definition starts_with_lt (r : regex) : Prop :=
  exists r', r = Seq (Chr "<") r'.

End Re.
Import Re.

(* ------------------------------------------------------------------ *)
(** ** Exceptions and the library interface *)

Inductive exn : Type :=
| KeyError (key : string)
| BinasciiError.

(** A computation that returns a value or raises. *)
Definition py : Type -> Type := sum exn.

#[global] Instance Monad_py : Monad py := Monad_either exn.
#[global] Instance Exception_py : MonadExc exn py := Exception_either exn.

(** [d[key]] on a mapping kept in insertion order. *)
Fixpoint dict_get {V : Type} (key : string) (d : list (string * V))
  : py V :=
  match d with
  | [] => raise (KeyError key)
  | (k, v) :: tl => if String.eqb k key then ret v else dict_get key tl
  end.

(** The calls into Python's standard library and BeautifulSoup.  A codec
    returns [None] where the Python call raises. *)
Class PyLib : Type := {
  (* [html._replace_charref] on the text of group 1 *)
  replace_charref : string -> string;
  (* [urlparse(u).hostname]; [None] when it is [None] or the call raises *)
  url_hostname : string -> option string;
  (* [base64.urlsafe_b64decode], [base64.b64decode] *)
  urlsafe_b64decode : string -> option (list Byte.byte);
  b64decode : string -> option (list Byte.byte);
  (* [bytes.decode("utf-8", errors="replace")] *)
  utf8_decode_replace : list Byte.byte -> string;
  (* BeautifulSoup: a document, its elements, and the calls made on them *)
  soup : Type;
  tag : Type;
  bs_parse : string -> soup;
  bs_find_all_blockquote : soup -> list tag;
  bs_tag_get_text : soup -> tag -> string;
  bs_decompose : soup -> tag -> soup;
  bs_find_gmail_quote : soup -> option tag;
  bs_get_text : soup -> string
}.

Definition nl : ascii := ascii_of_nat 10.
Definition dquote : ascii := ascii_of_nat 34.
Definition squote : ascii := ascii_of_nat 39.

Definition one_of (chars : string) (c : ascii) : bool := mem_char c chars.

(* ------------------------------------------------------------------ *)
(** ** email_jbhunt_prep.py *)

Module Prep.

Record weights : Type := {
  w_from_domain : Z;
  w_host : Z;
  w_phrase : Z;
  w_sender_name : Z
}.

(** [JBH_RULES], as loaded from the rule file. *)
Record rules : Type := {
  from_domains : list string;
  sender_names_contains : list string;
  body_phrases : list string;
  url_host_contains : list string;
  rule_weights : weights;
  threshold : Z;
  subject_patterns : list (string * regex);
  reply_true_if : list string;
  reply_false_if : list string;
  footer_indicators : list string
}.

(** An email record; a missing key and a null value both read as
    [None] through [email.get]. *)
Record email : Type := {
  e_from : option string;
  e_subject : option string;
  e_original_body : option string
}.

(** [&(#[0-9]+;?|#[xX][0-9a-fA-F]+;?|[^\t\n\f <&#;]{1,32};?)] *)
Definition name_stop (c : ascii) : bool :=
  (code c =? 9) || (code c =? 10) || (code c =? 12) || one_of " <&#;" c.

Definition charref_re : regex :=
  Seq (Chr "&")
      (Group 1
         (Alt (Cat [Chr "#"; Plus (Cls false is_digit); Opt (Chr ";")])
         (Alt (Cat [Chr "#"; Cls false (one_of "xX");
                    Plus (Cls false is_hex); Opt (Chr ";")])
              (Cat [Cls true name_stop; UpTo 31 (Cls true name_stop);
                    Opt (Chr ";")])))).

(** [(?is)<(script|style)[^>]*>.*?</\1>] *)
Definition script_re : regex :=
  Cat [Chr "<"; Group 1 (Alt (Lit "script") (Lit "style"));
       Star true (Cls true (one_of ">")); Chr ">";
       Star false Any; Lit "</"; Backref 1; Chr ">"].

(** [(?is)<[^>]+>] *)
Definition tag_re : regex :=
  Cat [Chr "<"; Plus (Cls true (one_of ">")); Chr ">"].

(** [\s+] *)
Definition spaces_re : regex := Plus (Cls false is_space).

(** [href=['\x22]([^'\x22]+)['\x22]], with [\x22] for the double quote *)
Definition is_quote (c : ascii) : bool :=
  Ascii.eqb c squote || Ascii.eqb c dquote.

Definition href_re : regex :=
  Cat [Lit "href="; Cls false is_quote;
       Group 1 (Plus (Cls true is_quote)); Cls false is_quote].

(** [(https?://[^\s<>\x22\)\]]+)] *)
Definition url_stop (c : ascii) : bool :=
  is_space c || one_of "<>)]" c || Ascii.eqb c dquote.

Definition url_re : regex :=
  Group 1 (Cat [Lit "http"; Opt (Chr "s"); Lit "://";
                Plus (Cls true url_stop)]).

(** [([A-Za-z0-9._%+\-]+)@([A-Za-z0-9.\-]+\.[A-Za-z]{2,})] *)
Definition local_char (c : ascii) : bool :=
  is_ascii_alpha c || is_digit c || one_of "._%+-" c.

Definition domain_char (c : ascii) : bool :=
  is_ascii_alpha c || is_digit c || one_of ".-" c.

Definition from_re : regex :=
  Cat [Group 1 (Plus (Cls false local_char)); Chr "@";
       Group 2 (Cat [Plus (Cls false domain_char); Chr ".";
                     AtLeast 2 (Cls false is_ascii_alpha)])].

Section WithLib.
Context {L : PyLib}.

(** [html.unescape] *)
Definition unescape (s : string) : string :=
  if negb (contains "&" s) then s
  else sub_with no_flags charref_re
                (fun h => replace_charref (group 1 (h_caps h))) s.

Definition strip_html (text : string) : string :=
  let t := sub flag_is script_re " " text in
  let t := sub flag_is tag_re " " t in
  let t := unescape t in
  strip (sub no_flags spaces_re " " t).

Definition find_urls (text : string) : list string :=
  let urls := findall1 flag_i href_re text in
  let urls := (urls ++ findall1 flag_i url_re text)%list in
  dedupe (map (rstrip_chars ".,);]") urls).

Fixpoint hosts (urls : list string) : list string :=
  match urls with
  | [] => []
  | u :: tl =>
      match url_hostname u with
      | Some h => if truthy h then lower h :: hosts tl else hosts tl
      | None => hosts tl
      end
  end.

(** The local [score] of [score_jbhunt] when it reaches the return. *)
Definition jbhunt_score (cfg : rules) (e : email) : Z :=
  let score := 0%Z in
  let from_field := or_empty (e_from e) in
  let m := search no_flags from_re from_field in
  let from_domain :=
    match m with
    | Some h => Some (lower (group 2 (h_caps h)))
    | None => None
    end in
  let score :=
    if match from_domain with
       | Some d =>
           truthy d && existsb (fun sfx => endswith d sfx) (from_domains cfg)
       | None => false
       end
    then (score + w_from_domain (rule_weights cfg))%Z else score in
  let score :=
    if existsb (fun s => contains s from_field) (sender_names_contains cfg)
    then (score + w_sender_name (rule_weights cfg))%Z else score in
  let body := or_empty (e_original_body e) in
  let url_hosts := hosts (find_urls body) in
  let score :=
    if existsb (fun h => existsb (fun tok => contains tok h)
                                 (url_host_contains cfg)) url_hosts
    then (score + w_host (rule_weights cfg))%Z else score in
  let text_body := lower (strip_html body) in
  let score :=
    if existsb (fun p => contains (lower p) text_body) (body_phrases cfg)
    then (score + w_phrase (rule_weights cfg))%Z else score in
  score.

Definition score_jbhunt (cfg : rules) (e : email) : bool :=
  (threshold cfg <=? jbhunt_score cfg e)%Z.
End WithLib.

(** The loop of [subject_category] over the entries of the mapping, in
    their order. *)
Fixpoint subject_category_loop (pats : list (string * regex)) (s : string)
  : string :=
  match pats with
  | [] => "OTHER"
  | (key, pat) :: rest =>
      if String.eqb key "ID_PATTERN" then subject_category_loop rest s
      else match search no_flags pat s with
           | Some _ => key
           | None => subject_category_loop rest s
           end
  end.

Definition subject_category (cfg : rules) (subject : option string)
  : string :=
  let s := lower (or_empty subject) in
  subject_category_loop (subject_patterns cfg) s.

Definition extract_load_ids (cfg : rules) (subject : option string)
  : py (list item) :=
  pat <- dict_get "ID_PATTERN" (subject_patterns cfg) ;;
  ret (findall no_flags pat (or_empty subject)).

(** [max(idxs)] for a list with head [i]. *)
Definition max_of (i : Z) (tl : list Z) : Z := fold_left Z.max tl i.

Definition Qltb (x y : Q) : bool := negb (Qle_bool y x).

Definition stamp_position (cfg : rules) (text_body : option string)
  : option string :=
  let t := lower (or_empty text_body) in
  let idxs :=
    map (fun ind => rfind t (lower ind))
        (filter (fun ind => contains (lower ind) t) (footer_indicators cfg)) in
  match idxs with
  | [] => None
  | i :: tl =>
      let pos := max_of i tl in
      let frac :=
        (inject_Z pos / inject_Z (Z.max (Z.of_nat (String.length t)) 1))%Q in
      if Qltb frac (2 # 10)%Q then Some "header"
      else if Qltb frac (7 # 10)%Q then Some "body"
      else Some "footer"
  end.

Record classification : Type := {
  is_jbhunt : bool;
  c_subject_category : string;
  load_ids : list item;
  company_stamp_position : option string;
  needs_response_pred : option bool;
  reason : string
}.

Definition classify {L : PyLib} (cfg : rules) (e : email)
  : py classification :=
  let is_jbh := score_jbhunt cfg e in
  let subj := or_empty (e_subject e) in
  let cat := subject_category cfg (Some subj) in
  ids <- extract_load_ids cfg (Some subj) ;;
  let text_body := strip_html (or_empty (e_original_body e)) in
  let stamp_pos := stamp_position cfg (Some text_body) in
  let '(needs, why) :=
    if mem cat (reply_true_if cfg)
    then (Some true,
          "Subject category '" ++ cat ++ "' indicates action is needed.")
    else if mem cat (reply_false_if cfg)
    then (Some false, "Subject category '" ++ cat ++ "' is informational.")
    else (None, "No strong subject signal.") in
  ret {| is_jbhunt := is_jbh;
         c_subject_category := cat;
         load_ids := ids;
         company_stamp_position := stamp_pos;
         needs_response_pred := needs;
         reason := why |}.

(** *** Notions the statements about the classifier use *)

(** [re.search(pat, s)] found something. *)
Definition matches (pat : regex) (s : string) : bool :=
  match search no_flags pat s with Some _ => true | None => false end.

(** The entry is a category (not the identifier pattern) whose pattern
    matches [s]. *)
Definition wins (s : string) (kp : string * regex) : bool :=
  negb (String.eqb (fst kp) "ID_PATTERN") && matches (snd kp) s.

Section Evidence.
Context {L : PyLib}.
Variable cfg : rules.
Variable e : email.

(** The lowercased domain of the first address in the From header. *)
Definition sender_domain : option string :=
  match search no_flags from_re (or_empty (e_from e)) with
  | Some h => Some (lower (group 2 (h_caps h)))
  | None => None
  end.

(** The configured tokens that match, channel by channel. *)
Definition domain_hits : list string :=
  match sender_domain with
  | Some d =>
      if truthy d
      then filter (fun sfx => endswith d sfx) (from_domains cfg) else []
  | None => []
  end.

Definition name_hits : list string :=
  filter (fun s => contains s (or_empty (e_from e)))
         (sender_names_contains cfg).

Definition host_hits : list (string * string) :=
  flat_map (fun h => map (fun tok => (h, tok))
                         (filter (fun tok => contains tok h)
                                 (url_host_contains cfg)))
           (hosts (find_urls (or_empty (e_original_body e)))).

Definition phrase_hits : list string :=
  filter (fun p => contains (lower p)
                            (lower (strip_html (or_empty (e_original_body e)))))
         (body_phrases cfg).

(** A channel's share of the score: its weight once, if anything hit. *)
Definition contribution {A : Type} (hits : list A) (w : Z) : Z :=
  match hits with [] => 0%Z | _ :: _ => w end.
End Evidence.

End Prep.

(* ------------------------------------------------------------------ *)
(** ** temp.py: the latest-reply extractor *)

Module Reply.

(** A node of the MIME part tree: [part.get("mimeType")],
    [part.get("body", {}).get("data")], and [part["parts"]] when the key
    is present. *)
#[warnings="-register-all"] Inductive part : Type :=
| Part (mimeType : option string) (data : option string)
       (parts : option (list part)).

(** The dictionary [{"plain": ..., "html": ...}]. *)
Record bodies : Type := { plain : string; html : string }.

Definition no_bodies : bodies := {| plain := ""; html := "" |}.
Definition set_plain (b : bodies) (v : string) : bodies :=
  {| plain := v; html := html b |}.
Definition set_html (b : bodies) (v : string) : bodies :=
  {| plain := plain b; html := v |}.

(** [\n_+\n|\nOn .* wrote:\n] *)
Definition quote_re : regex :=
  Alt (Cat [Chr nl; Plus (Chr "_"); Chr nl])
      (Cat [Chr nl; Lit "On "; Star true Any; Lit " wrote:"; Chr nl]).

Definition placeholder : string := "(No readable content found)".

(** [part.get("mimeType") == v] *)
Definition mime_is (mt : option string) (v : string) : bool :=
  match mt with
  | Some m => String.eqb m v
  | None => false
  end.

(** [-len(data) % 4] *)
Definition pad_count (data : string) : nat :=
  Z.to_nat ((- Z.of_nat (String.length data)) mod 4).

Section WithLib.
Context {L : PyLib}.

Definition raising {A : Type} (x : option A) : py A :=
  match x with
  | Some v => ret v
  | None => raise BinasciiError
  end.

Definition _decode_base64url (data : string) : py string :=
  if negb (truthy data) then ret ""
  else
    catch
      (let padded := data ++ replicate (pad_count data) "=" in
       b <- raising (urlsafe_b64decode padded) ;;
       ret (utf8_decode_replace b))
      (fun _ =>
         catch
           (b <- raising (b64decode data) ;;
            ret (utf8_decode_replace b))
           (fun _ => ret data)).

(** The two [if nested[...] and not body[...]] assignments. *)
Definition fill_from (body nested : bodies) : bodies :=
  let body :=
    if truthy (plain nested) && negb (truthy (plain body))
    then set_plain body (plain nested) else body in
  if truthy (html nested) && negb (truthy (html body))
  then set_html body (html nested) else body.

(** The [if mime == "text/plain" ... elif mime == "text/html" ...]
    statement of the loop body. *)
Definition own_content (mt data : option string) (body : bodies)
  : py bodies :=
  let mime := or_empty mt in
  if String.eqb mime "text/plain" && negb (truthy (plain body))
  then
    match data with
    | Some d =>
        if truthy d
        then v <- _decode_base64url d ;; ret (set_plain body v)
        else ret body
    | None => ret body
    end
  else if String.eqb mime "text/html" && negb (truthy (html body))
  then
    match data with
    | Some d =>
        if truthy d
        then v <- _decode_base64url d ;; ret (set_html body v)
        else ret body
    | None => ret body
    end
  else ret body.

(** The [if part.get("mimeType") == "message/rfc822"] statement. *)
Definition embedded_message (mt data : option string) (body : bodies)
  : py bodies :=
  if mime_is mt "message/rfc822"
  then
    match data with
    | Some nested =>
        if truthy nested
        then
          catch
            (nested_decoded <- _decode_base64url nested ;;
             ret (if negb (truthy (plain body))
                  then set_plain body nested_decoded else body))
            (fun _ => ret body)
        else ret body
    | None => ret body
    end
  else ret body.

(** One iteration of the loop of [find_email_parts] on [p], from the
    accumulated [body]; the inner [walk] is the recursive call. *)
Fixpoint visit_part (body : bodies) (p : part) {struct p} : py bodies :=
  match p with
  | Part mt data sub =>
      body <-
        match sub with
        | Some ps =>
            nested <-
              (fix walk (b : bodies) (l : list part) {struct l}
                 : py bodies :=
                 match l with
                 | [] => ret b
                 | q :: tl => b' <- visit_part b q ;; walk b' tl
                 end) no_bodies ps ;;
            ret (fill_from body nested)
        | None => ret body
        end ;;
      body <- own_content mt data body ;;
      embedded_message mt data body
  end.

Fixpoint walk_parts (b : bodies) (l : list part) : py bodies :=
  match l with
  | [] => ret b
  | q :: tl => b' <- visit_part b q ;; walk_parts b' tl
  end.

Definition find_email_parts (l : list part) : py bodies :=
  walk_parts no_bodies l.

(** The HTML branch: drop the quoting blockquotes, then the Gmail
    quote container, then read the text. *)
Definition drop_quotes (sp : soup) : soup :=
  fold_left
    (fun sp bq =>
       let txt := lower (bs_tag_get_text sp bq) in
       if contains "wrote:" txt || contains "from:" txt
       then bs_decompose sp bq else sp)
    (bs_find_all_blockquote sp) sp.

Definition clean_html (h : string) : string :=
  let sp := drop_quotes (bs_parse h) in
  let sp :=
    match bs_find_gmail_quote sp with
    | Some q => bs_decompose sp q
    | None => sp
    end in
  bs_get_text sp.

(** [body_parts] of [extract_latest_reply] after its first [if]. *)
Definition payload_bodies (payload : part) : py bodies :=
  match payload with
  | Part mt data sub =>
      match sub with
      | Some ps => find_email_parts ps
      | None =>
          match data with
          | Some d =>
              content <- _decode_base64url d ;;
              ret (if mime_is mt "text/html"
                   then set_html no_bodies content
                   else set_plain no_bodies content)
          | None => ret no_bodies
          end
      end
  end.

(** [cleaned] after the quoted history is removed, before the
    fallback to the plain content. *)
Definition strip_quoted (body_parts : bodies) : string :=
  if truthy (html body_parts) then clean_html (html body_parts)
  else if truthy (plain body_parts)
       then strip (split1_head no_flags quote_re (plain body_parts))
       else "".

Definition extract_latest_reply (payload : part) : py (string * string) :=
  body_parts <- payload_bodies payload ;;
  let original_body := str_or (html body_parts) (plain body_parts) in
  let cleaned := strip_quoted body_parts in
  let cleaned :=
    if negb (truthy cleaned) && truthy (plain body_parts)
    then strip (plain body_parts) else cleaned in
  ret (original_body, str_or cleaned placeholder).

(** *** Notions the statements about the walk use *)

(** A field that holds text is not written again. *)
Definition keeps (b b' : bodies) : Prop :=
  (truthy (plain b) = true -> plain b' = plain b)
  /\ (truthy (html b) = true -> html b' = html b).

(** Visiting [p] returns, and keeps what was captured before. *)
Definition visits_well (p : part) : Prop :=
  forall b, exists b', visit_part b p = inr b' /\ keeps b b'.
End WithLib.

(** Induction over a part tree, children before their parent. *)
Section PartInduction.
Variable P : part -> Prop.
Hypothesis step :
  forall mt d sub,
    match sub with Some ps => Forall P ps | None => True end ->
    P (Part mt d sub).

Fixpoint part_nested_ind (p : part) : P p :=
  match p with
  | Part mt d sub =>
      step mt d sub
           (match sub
                  return match sub with
                         | Some ps => Forall P ps
                         | None => True
                         end
            with
            | Some ps =>
                (fix all (l : list part) : Forall P l :=
                   match l with
                   | [] => Forall_nil P
                   | q :: tl => Forall_cons q (part_nested_ind q) (all tl)
                   end) ps
            | None => I
            end)
  end.
End PartInduction.

End Reply.

(* ------------------------------------------------------------------ *)
(** ** A small executable library, for running the program on examples

    [Ref.lib] decodes well-formed base64 of ASCII text, resolves the
    predefined character references and code points that fit a character,
    reads the host of a plain [scheme://host/path] URL, and treats an HTML
    document as text without elements.  The general theorems quantify
    over every [PyLib]; this instance only runs concrete inputs that lie
    in that domain. *)

Module Ref.

Definition html5_core : list (string * string) :=
  [("lt;", "<"); ("gt;", ">"); ("amp;", "&");
   ("quot;", String dquote ""); ("apos;", "'");
   ("lt", "<"); ("gt", ">"); ("amp", "&"); ("quot", String dquote "");
   ("nbsp;", String (ascii_of_nat 160) ""); ("nbsp", String (ascii_of_nat 160) "")].

Fixpoint lookup (k : string) (d : list (string * string)) : option string :=
  match d with
  | [] => None
  | (k', v) :: tl => if String.eqb k' k then Some v else lookup k tl
  end.

(** The loop [for x in range(len(s)-1, 1, -1)] over name prefixes. *)
Fixpoint try_prefix (x : nat) (s : string) : option string :=
  match x with
  | 0 | 1 => None
  | S k =>
      match lookup (substring 0 x s) html5_core with
      | Some v => Some (v ++ drop x s)
      | None => try_prefix k s
      end
  end.

Definition digit_val (c : ascii) : nat :=
  if is_digit c then code c - 48
  else if in_range 97 102 c then code c - 87
  else code c - 55.

Fixpoint parse_int (base : nat) (acc : nat) (s : string) : nat :=
  match s with
  | EmptyString => acc
  | String c tl => parse_int base (acc * base + digit_val c) tl
  end.

Definition chr_fits (n : nat) : bool :=
  ((32 <=? n) && (n <=? 126)) || ((160 <=? n) && (n <=? 255)).

Definition ref_replace_charref (s : string) : string :=
  match s with
  | String "#" tl =>
      let body := rstrip_chars ";" tl in
      let num :=
        match body with
        | String c hex =>
            if one_of "xX" c then parse_int 16 0 hex else parse_int 10 0 body
        | EmptyString => 0
        end in
      if chr_fits num then String (ascii_of_nat num) "" else "&" ++ s
  | _ =>
      match lookup s html5_core with
      | Some v => v
      | None =>
          match try_prefix (String.length s - 1) s with
          | Some v => v
          | None => "&" ++ s
          end
      end
  end.

(** [scheme://host], the host ending at the first of [/?#:@]. *)
Definition scheme_char (c : ascii) : bool :=
  is_ascii_alpha c || is_digit c || one_of "+.-" c.

Definition host_re : regex :=
  Cat [Plus (Cls false scheme_char); Lit "://";
       Group 1 (Star true (Cls true (one_of "/?#:@")))].

Definition ref_url_hostname (u : string) : option string :=
  match match_at no_flags host_re false u with
  | Some (_, cs) =>
      let h := group 1 cs in
      if truthy h then Some (lower h) else None
  | None => None
  end.

(** The value of a base64 digit; [urlsafe] also admits [-] and [_]. *)
Definition b64_digit (urlsafe : bool) (c : ascii) : option nat :=
  if in_range 65 90 c then Some (code c - 65)
  else if in_range 97 122 c then Some (code c - 71)
  else if is_digit c then Some (code c + 4)
  else if Ascii.eqb c "+" || (urlsafe && Ascii.eqb c "-") then Some 62
  else if Ascii.eqb c "/" || (urlsafe && Ascii.eqb c "_") then Some 63
  else None.

Definition byte_of (n : nat) : Byte.byte :=
  byte_of_ascii (ascii_of_nat (n mod 256)).

(** Groups of four digits; padding only in the last group. *)
Fixpoint b64_groups (urlsafe : bool) (s : string) : option (list Byte.byte) :=
  match s with
  | EmptyString => Some []
  | String a (String b (String c (String d tl))) =>
      match b64_digit urlsafe a, b64_digit urlsafe b with
      | Some x, Some y =>
          let b1 := byte_of (x * 4 + y / 16) in
          match b64_digit urlsafe c, b64_digit urlsafe d, tl with
          | Some z, Some w, _ =>
              match b64_groups urlsafe tl with
              | Some rest =>
                  Some (b1 :: byte_of (y * 16 + z / 4)
                           :: byte_of (z * 64 + w) :: rest)
              | None => None
              end
          | Some z, None, EmptyString =>
              if Ascii.eqb d "=" then Some [b1; byte_of (y * 16 + z / 4)]
              else None
          | None, None, EmptyString =>
              if Ascii.eqb c "=" && Ascii.eqb d "=" then Some [b1] else None
          | _, _, _ => None
          end
      | _, _ => None
      end
  | _ => None
  end.

Definition ref_utf8 (bs : list Byte.byte) : string :=
  string_of_list_ascii
    (map (fun b => let c := ascii_of_byte b in
                   if code c <? 128 then c else "?"%char) bs).

#[export] Instance lib : PyLib := {|
  replace_charref := ref_replace_charref;
  url_hostname := ref_url_hostname;
  urlsafe_b64decode := b64_groups true;
  b64decode := b64_groups false;
  utf8_decode_replace := ref_utf8;
  soup := string;
  tag := unit;
  bs_parse := fun h => h;
  bs_find_all_blockquote := fun _ => [];
  bs_tag_get_text := fun _ _ => "";
  bs_decompose := fun sp _ => sp;
  bs_find_gmail_quote := fun _ => None;
  bs_get_text := strip
|}.

End Ref.

(* ------------------------------------------------------------------ *)
(** ** Sample rule sets and inputs *)

Module Samples.

(** [#(\d+)] *)
Definition hash_digits : regex :=
  Seq (Chr "#") (Group 1 (Plus (Cls false is_digit))).

(** [([A-Z]+\d+)] *)
Definition upper_ref : regex :=
  Group 1 (Seq (Plus (Cls false (in_range 65 90)))
               (Plus (Cls false is_digit))).

Definition no_weights : Prep.weights :=
  {| Prep.w_from_domain := 0; Prep.w_host := 0; Prep.w_phrase := 0;
     Prep.w_sender_name := 0 |}.

Definition vendor_rules : Prep.rules :=
  {| Prep.from_domains := ["jbhunt.com"];
     Prep.sender_names_contains := ["J.B. Hunt"];
     Prep.body_phrases := ["J.B. Hunt Transport"];
     Prep.url_host_contains := ["jbhunt"];
     Prep.rule_weights :=
       {| Prep.w_from_domain := 3; Prep.w_host := 2; Prep.w_phrase := 1;
          Prep.w_sender_name := 2 |};
     Prep.threshold := 3;
     Prep.subject_patterns :=
       [("ID_PATTERN", hash_digits); ("UPDATE", Lit "update");
        ("TENDER", Lit "tender")];
     Prep.reply_true_if := ["TENDER"; "UPDATE"];
     Prep.reply_false_if := ["UPDATE"];
     Prep.footer_indicators := ["J.B. Hunt Transport"] |}.

(** The same rules with the domain suffix spelled [sfx]. *)
Definition domain_rules (sfx : string) : Prep.rules :=
  {| Prep.from_domains := [sfx];
     Prep.sender_names_contains := [];
     Prep.body_phrases := [];
     Prep.url_host_contains := [];
     Prep.rule_weights :=
       {| Prep.w_from_domain := 3; Prep.w_host := 2; Prep.w_phrase := 1;
          Prep.w_sender_name := 2 |};
     Prep.threshold := 3;
     Prep.subject_patterns := [("ID_PATTERN", hash_digits)];
     Prep.reply_true_if := [];
     Prep.reply_false_if := [];
     Prep.footer_indicators := [] |}.

Definition id_rules (pat : regex) : Prep.rules :=
  {| Prep.from_domains := []; Prep.sender_names_contains := [];
     Prep.body_phrases := []; Prep.url_host_contains := [];
     Prep.rule_weights := no_weights; Prep.threshold := 0;
     Prep.subject_patterns := [("ID_PATTERN", pat)];
     Prep.reply_true_if := []; Prep.reply_false_if := [];
     Prep.footer_indicators := [] |}.

Definition stamp_rules (ind : string) : Prep.rules :=
  {| Prep.from_domains := []; Prep.sender_names_contains := [];
     Prep.body_phrases := []; Prep.url_host_contains := [];
     Prep.rule_weights := no_weights; Prep.threshold := 0;
     Prep.subject_patterns := [];
     Prep.reply_true_if := []; Prep.reply_false_if := [];
     Prep.footer_indicators := [ind] |}.

(** A text of [before + 5 + after] characters with the stamp at index
    [before]. *)
Definition stamped_text (before after : nat) : string :=
  replicate before "x" ++ "Stamp" ++ replicate after "x".

(** Only the sender's domain speaks for the vendor. *)
Definition domain_only_mail : Prep.email :=
  {| Prep.e_from := Some "Dispatch <Ops@Mail.JBHunt.com>";
     Prep.e_subject := Some "Tender UPDATE #12";
     Prep.e_original_body := Some "<p>Please   confirm.</p>" |}.

(** All four channels speak. *)
Definition vendor_mail : Prep.email :=
  {| Prep.e_from := Some "J.B. Hunt 360 <Ops@Mail.JBHunt.com>";
     Prep.e_subject := Some "Load Tender #123 and #456";
     Prep.e_original_body :=
       Some "<p>See <a href='https://www.JBHunt.com/loads'>loads</a></p> J.B. Hunt transport, Inc." |}.

Definition bare_mail : Prep.email :=
  {| Prep.e_from := Some "Ops <Ops@JBHunt.com>";
     Prep.e_subject := None;
     Prep.e_original_body := None |}.

(** The plain text [\n_\nold] in base64url. *)
Definition quoted_only_payload : Reply.part :=
  Reply.Part (Some "text/plain") (Some "Cl8Kb2xk") None.

Definition quoted_only_text : string :=
  String nl ("_" ++ String nl "old").

(** A forwarded message [Hello] beside a plain part [World]. *)
Definition forwarded_part : Reply.part :=
  Reply.Part (Some "message/rfc822") (Some "SGVsbG8") None.

End Samples.

(* ------------------------------------------------------------------ *)
(** ** temp.py: what is sent to the chat and what is kept on disk *)

Module Notify.

(** [s.replace(old, new)] for a one-character [old]. *)
Fixpoint replace_char (old : ascii) (new s : string) : string :=
  match s with
  | EmptyString => EmptyString
  | String c tl =>
      if Ascii.eqb c old then new ++ replace_char old new tl
      else String c (replace_char old new tl)
  end.

(** [html.escape(s)], quotes included: five replacements, the ampersand
    first. *)
Definition html_escape (s : string) : string :=
  let s := replace_char "&" "&amp;" s in
  let s := replace_char "<" "&lt;" s in
  let s := replace_char ">" "&gt;" s in
  let s := replace_char dquote "&quot;" s in
  replace_char squote "&#x27;" s.

(** [(https?://[^\s<]+)] *)
Definition link_stop (c : ascii) : bool := is_space c || Ascii.eqb c "<".

Definition link_re : regex :=
  Group 1 (Cat [Lit "http"; Opt (Chr "s"); Lit "://";
                Plus (Cls true link_stop)]).

(** The replacement template: an anchor around group 1. *)
Definition anchor (url : string) : string :=
  "<a href=" ++ String dquote url ++ String dquote ">link</a>".

Definition format_body_for_telegram (body : string) : string :=
  let escaped := html_escape body in
  sub_with no_flags link_re (fun h => anchor (group 1 (h_caps h))) escaped.

Definition truncated_mark : string :=
  String nl (String nl "<b>[Message truncated]</b>").

(** The body of the message in [check_new_emails]: formatted, and cut at
    3800 characters. *)
Definition message_body (cleaned : string) : string :=
  let processed := format_body_for_telegram cleaned in
  if 3800 <? String.length processed
  then substring 0 3800 processed ++ truncated_mark
  else processed.

(** [^(re:|Re:|RE:)\s*] *)
Definition reply_prefix_re : regex :=
  Seq (Group 1 (Alt (Lit "re:") (Alt (Lit "Re:") (Lit "RE:"))))
      (Star true (Cls false is_space)).

(** [re.sub(r, repl, s)] for a pattern [r] anchored at the start of the
    text by a leading caret and matching no empty text: the only match
    there can be is the one at index 0. *)
Definition sub_at_start (f : flags) (r : regex) (repl s : string) : string :=
  match match_at f r false s with
  | Some (rest, _) => repl ++ rest
  | None => s
  end.

(** The subject as [check_new_emails] keeps it. *)
Definition clean_subject (subject : string) : string :=
  sub_at_start no_flags reply_prefix_re "" subject.

(** [s.split(sep)] for a one-character separator. *)
Fixpoint split_char (sep : ascii) (s : string) : list string :=
  match s with
  | EmptyString => [EmptyString]
  | String c tl =>
      if Ascii.eqb c sep then EmptyString :: split_char sep tl
      else match split_char sep tl with
           | hd :: rest => String c hd :: rest
           | [] => [String c EmptyString]
           end
  end.

(** The data of a decision button. *)
Definition callback_data (mid : string) (yes : bool) : string :=
  "response:" ++ mid ++ ":" ++ (if yes then "yes" else "no").

(** The first two statements of [handle_decision_callback]: unpack the
    three fields and read the decision; [None] when the unpacking raises
    and the handler answers that there was an error. *)
Definition callback_decision (data : string) : option (string * bool) :=
  match split_char ":" data with
  | [_; email_id; decision_str] =>
      Some (email_id, String.eqb decision_str "yes")
  | _ => None
  end.

End Notify.

Module Store.

(** A record of the emails file; [r_id] is [None] when the key is
    missing. *)
Record record : Type := {
  r_id : option string;
  r_subject : string;
  r_from : string;
  r_original_body : string;
  r_needs_response : option bool
}.

(** The emails file: missing, not parsable as JSON, or holding a list
    of records, which is all the program ever writes to it.  A file
    that parses to anything else is not covered. *)
Inductive file : Type :=
| Missing
| Corrupt
| Stored (data : list record).

(** The file, whether it can be opened for writing, and the members of
    the global set [PROCESSED_EMAIL_IDS]; of the list that holds them
    only the membership counts. *)
Record state : Type := {
  emails_file : file;
  writable : bool;
  processed_ids : list string
}.

Definition with_file (st : state) (f : file) : state :=
  {| emails_file := f; writable := writable st;
     processed_ids := processed_ids st |}.

Definition with_ids (st : state) (ids : list string) : state :=
  {| emails_file := emails_file st; writable := writable st;
     processed_ids := ids |}.

(** The ids of the set comprehension of [load_processed_emails], over
    the records that have one; a null id equals no message id and is
    left out. *)
Fixpoint ids_of (data : list record) : list string :=
  match data with
  | [] => []
  | e :: tl =>
      match r_id e with
      | Some i => i :: ids_of tl
      | None => ids_of tl
      end
  end.

Definition load_processed_emails (st : state) : state :=
  match emails_file st with
  | Missing => st
  | Corrupt => st
  | Stored data => with_ids st (ids_of data)
  end.

Definition save_email_record (rec : record) (st : state) : state :=
  let data :=
    match emails_file st with
    | Stored data => data
    | Missing | Corrupt => []
    end in
  let data := (data ++ [rec])%list in
  if writable st then with_file st (Stored data) else st.

Definition set_needs (e : record) (decision : bool) : record :=
  {| r_id := r_id e; r_subject := r_subject e; r_from := r_from e;
     r_original_body := r_original_body e;
     r_needs_response := Some decision |}.

Definition id_is (e : record) (email_id : string) : bool :=
  match r_id e with
  | Some i => String.eqb i email_id
  | None => false
  end.

(** The loop of [update_email_record]: the first record with the id is
    updated, then [break]. *)
Fixpoint mark_first (email_id : string) (decision : bool)
         (data : list record) : list record :=
  match data with
  | [] => []
  | e :: tl =>
      if id_is e email_id then set_needs e decision :: tl
      else e :: mark_first email_id decision tl
  end.

Definition update_email_record (email_id : string) (decision : bool)
           (st : state) : state :=
  match emails_file st with
  | Missing => st
  | Corrupt => st
  | Stored data =>
      if writable st
      then with_file st (Stored (mark_first email_id decision data))
      else st
  end.

(** What can be read of the file: the records of a parsable file,
    nothing for a missing or unparsable one. *)
Definition kept_records (st : state) : list record :=
  match emails_file st with
  | Stored data => data
  | Missing | Corrupt => []
  end.

End Store.

(** ** Where the text of a walk comes from *)

Module Provenance.
Import Reply.

(** [q] is [p] or lies below it. *)
Inductive in_tree (q : part) : part -> Prop :=
| in_here : in_tree q q
| in_below mt d ps p :
    In p ps -> in_tree q p -> in_tree q (Part mt d (Some ps)).

(** [q] lies in one of the trees of [l]. *)
Definition in_forest (l : list part) (q : part) : Prop :=
  exists p, In p l /\ in_tree q p.

Section WithLib.
Context {L : PyLib}.

(** [v] is the decoded data of a node of [nodes] whose type lets it fill
    the plain field, or the html field. *)
Definition plain_source (nodes : part -> Prop) (v : string) : Prop :=
  exists mt d sub,
    nodes (Part mt (Some d) sub) /\ truthy d = true
    /\ (String.eqb (or_empty mt) "text/plain" = true
        \/ mime_is mt "message/rfc822" = true)
    /\ _decode_base64url d = inr v.

Definition html_source (nodes : part -> Prop) (v : string) : Prop :=
  exists mt d sub,
    nodes (Part mt (Some d) sub) /\ truthy d = true
    /\ String.eqb (or_empty mt) "text/html" = true
    /\ _decode_base64url d = inr v.

(** Each field is empty or comes from a node. *)
Definition sourced (nodes : part -> Prop) (b : bodies) : Prop :=
  (plain b = "" \/ plain_source nodes (plain b))
  /\ (html b = "" \/ html_source nodes (html b)).

(** Visiting [p] keeps the fields sourced from any set of nodes that
    holds the tree of [p]. *)
Definition visit_sourced (p : part) : Prop :=
  forall (nodes : part -> Prop) b b',
    (forall q, in_tree q p -> nodes q) ->
    sourced nodes b -> visit_part b p = inr b' -> sourced nodes b'.
End WithLib.

End Provenance.

(** ** The order of the stamp positions *)

Module StampOrder.

(** Not found, then header, body and footer, from the start of the text
    to its end. *)
Definition bucket_rank (b : option string) : nat :=
  match b with
  | None => 0
  | Some s =>
      if String.eqb s "header" then 1
      else if String.eqb s "body" then 2 else 3
  end.

End StampOrder.

(** ** More sample inputs *)

Module MoreSamples.
Import Reply Store.

Definition hello_part : part :=
  Part (Some "text/plain") (Some "SGVsbG8") None.

Definition world_part : part :=
  Part (Some "text/plain") (Some "V29ybGQ") None.

(** A container whose only part carries no data. *)
Definition hollow_part : part :=
  Part (Some "multipart/mixed") None
       (Some [Part (Some "text/plain") None None]).

(** [Reply text], a line of eight underscores, [Original message]. *)
Definition underscored_payload : part :=
  Part (Some "text/plain")
       (Some "UmVwbHkgdGV4dApfX19fX19fXwpPcmlnaW5hbCBtZXNzYWdl") None.

Definition underscored_text : string :=
  "Reply text" ++ String nl (replicate 8 "_" ++ String nl "Original message").

(** [Thanks, will do.], then [On Mon, Jan 1 Bob wrote:], then [old text]. *)
Definition attributed_payload : part :=
  Part (Some "text/plain")
       (Some "VGhhbmtzLCB3aWxsIGRvLgpPbiBNb24sIEphbiAxIEJvYiB3cm90ZToKb2xkIHRleHQ")
       None.

Definition attributed_text : string :=
  "Thanks, will do."
  ++ String nl ("On " ++ "Mon, Jan 1 Bob" ++ " wrote:" ++ String nl "old text").

Definition mail_record (i : string) : record :=
  {| r_id := Some i; r_subject := "Load 12"; r_from := "ops@jbhunt.com";
     r_original_body := "hello"; r_needs_response := None |}.

Definition store_of (f : file) : state :=
  {| emails_file := f; writable := true; processed_ids := [] |}.

(** Rules whose only sender-name token is the empty string. *)
Definition blank_name_rules : Prep.rules :=
  {| Prep.from_domains := []; Prep.sender_names_contains := [""];
     Prep.body_phrases := []; Prep.url_host_contains := [];
     Prep.rule_weights := Samples.no_weights; Prep.threshold := 0;
     Prep.subject_patterns := [];
     Prep.reply_true_if := []; Prep.reply_false_if := [];
     Prep.footer_indicators := [] |}.

Definition lookalike_mail : Prep.email :=
  {| Prep.e_from := Some "x@notjbhunt.com"; Prep.e_subject := None;
     Prep.e_original_body := None |}.

End MoreSamples.

(* ================================================================== *)
(** * Properties *)

Import Prep Reply Samples.

Ltac py_simpl :=
  unfold Monad_py, Exception_py in *;
  cbn [bind ret catch raise Monad_either Exception_either] in *.

(* ------------------------------------------------------------------ *)
(** ** Strings *)

Lemma length_append (a b : string) :
  String.length (a ++ b) = String.length a + String.length b.
Proof. induction a as [|c a IH]; simpl; [reflexivity | now rewrite IH]. Qed.

Lemma append_nil_r (s : string) : s ++ "" = s.
Proof. induction s as [|c s IH]; simpl; [reflexivity | now rewrite IH]. Qed.

Lemma append_assoc (a b c : string) : (a ++ b) ++ c = a ++ b ++ c.
Proof. induction a as [|x a IH]; simpl; [reflexivity | now rewrite IH]. Qed.

Lemma length_replicate n c : String.length (replicate n c) = n.
Proof. induction n; simpl; congruence. Qed.

Lemma truthy_false s : truthy s = false <-> s = "".
Proof. destruct s; simpl; split; congruence. Qed.

Lemma startswith_nil s : startswith s "" = true.
Proof. destruct s; reflexivity. Qed.

Lemma contains_char c s : contains (String c "") s = has_char c s.
Proof.
  induction s as [|d tl IH]; [reflexivity|].
  cbn [contains has_char startswith]. rewrite IH, startswith_nil.
  rewrite andb_true_r. now rewrite Ascii.eqb_sym.
Qed.

Lemma concat_cons (x : string) (xs : list string) :
  String.concat "" (x :: xs) = x ++ String.concat "" xs.
Proof.
  destruct xs; simpl; [now rewrite append_nil_r | reflexivity].
Qed.

Lemma suffix_refl s : suffix_of s s.
Proof. exists "". reflexivity. Qed.

Lemma suffix_trans a b c : suffix_of a b -> suffix_of b c -> suffix_of a c.
Proof.
  intros [p ->] [q ->]. exists (q ++ p). now rewrite append_assoc.
Qed.

Lemma suffix_tail c s : suffix_of s (String c s).
Proof. exists (String c ""). reflexivity. Qed.

Lemma suffix_length s' s :
  suffix_of s' s -> String.length s' <= String.length s.
Proof. intros [p ->]. rewrite length_append. lia. Qed.

Lemma substring_prefix p s : substring 0 (String.length p) (p ++ s) = p.
Proof.
  induction p as [|c p IH]; simpl.
  - destruct s; reflexivity.
  - now rewrite IH.
Qed.

Lemma consumed_append p s : consumed (p ++ s) s = p.
Proof.
  unfold consumed. rewrite length_append.
  replace (String.length p + String.length s - String.length s)
    with (String.length p) by lia.
  apply substring_prefix.
Qed.

Lemma consumed_spec s' s : suffix_of s' s -> s = consumed s s' ++ s'.
Proof. intros [p ->]. now rewrite consumed_append. Qed.

(** *** [rfind] finds the last occurrence *)

Lemma rfind_from_spec needle hay off :
  (0 <= off)%Z ->
  if contains needle hay
  then exists i, rfind_from needle hay off = (off + Z.of_nat i)%Z
                 /\ last_occurrence hay needle i
  else rfind_from needle hay off = (-1)%Z
       /\ forall j, occurs_at j hay needle = false.
Proof.
  revert off. induction hay as [|c tl IH]; intros off Hoff.
  - cbn [contains rfind_from]. rewrite orb_false_r.
    destruct (startswith "" needle) eqn:E.
    + exists 0. split; [lia|]. split; [exact E|].
      intros [|j] Hj; [lia | reflexivity].
    + split; [reflexivity|]. intros [|j]; [exact E | reflexivity].
  - cbn [contains rfind_from].
    specialize (IH (off + 1)%Z ltac:(lia)).
    destruct (contains needle tl).
    + destruct IH as (i & Hr & Ho & Hl). rewrite orb_true_r, Hr.
      destruct (0 <=? off + 1 + Z.of_nat i)%Z eqn:E;
        [|apply Z.leb_gt in E; lia].
      exists (S i). split; [lia|]. split; [exact Ho|].
      intros [|j] Hj; [lia|]. apply Hl. lia.
    + destruct IH as (Hr & Hn). rewrite orb_false_r, Hr.
      cbn [Z.leb Z.compare].
      destruct (startswith (String c tl) needle) eqn:E.
      * exists 0. split; [lia|]. split; [exact E|].
        intros [|j] Hj; [lia|]. apply Hn.
      * split; [reflexivity|]. intros [|j]; [exact E | apply Hn].
Qed.

Lemma rfind_last hay needle :
  contains needle hay = true ->
  exists i, rfind hay needle = Z.of_nat i /\ last_occurrence hay needle i.
Proof.
  intros H. pose proof (rfind_from_spec needle hay 0%Z ltac:(lia)) as S.
  rewrite H in S. exact S.
Qed.

(** *** Trimming and squeezing whitespace *)

Lemma lstrip_suffix s : suffix_of (lstrip_by is_space s) s.
Proof.
  induction s as [|c tl IH]; simpl; [apply suffix_refl|].
  destruct (is_space c); [|apply suffix_refl].
  eapply suffix_trans; [exact IH | apply suffix_tail].
Qed.

Lemma squeeze_true_lstrip s :
  squeeze true s = squeeze false (lstrip_by is_space s).
Proof.
  induction s as [|c tl IH]; [reflexivity|]. simpl.
  destruct (is_space c) eqn:E; [exact IH|]. simpl. now rewrite E.
Qed.

Lemma tidy_squeeze b s : tidy b (squeeze b s) = true.
Proof.
  revert b. induction s as [|c tl IH]; intros b; [reflexivity|]. simpl.
  destruct (is_space c) eqn:E.
  - destruct b; [apply IH|]. simpl. now rewrite IH.
  - simpl. rewrite E. apply IH.
Qed.

Lemma squeeze_tidy b s : tidy b s = true -> squeeze b s = s.
Proof.
  revert b. induction s as [|c tl IH]; intros b; [reflexivity|]. simpl.
  destruct (is_space c).
  - intros H. apply andb_prop in H. destruct H as [H Ht].
    apply andb_prop in H. destruct H as [Hc Hb].
    apply Ascii.eqb_eq in Hc. subst c.
    destruct b; [discriminate|]. now rewrite IH.
  - intros H. now rewrite IH.
Qed.

Lemma tidy_lstrip b s :
  tidy b s = true -> tidy false (lstrip_by is_space s) = true.
Proof.
  revert b. induction s as [|c tl IH]; intros b H; [reflexivity|].
  simpl in *. destruct (is_space c) eqn:E.
  - apply andb_prop in H. destruct H as [_ H]. eapply IH; exact H.
  - simpl. rewrite E. exact H.
Qed.

Lemma tidy_rstrip b s :
  tidy b s = true -> tidy b (rstrip_by is_space s) = true.
Proof.
  revert b. induction s as [|c tl IH]; intros b H; [reflexivity|].
  simpl in *. destruct (is_space c) eqn:E.
  - apply andb_prop in H. destruct H as [H Ht]. apply IH in Ht.
    destruct (rstrip_by is_space tl); [reflexivity|].
    simpl. rewrite E. simpl in Ht. now rewrite H, Ht.
  - apply IH in H. destruct (rstrip_by is_space tl) eqn:Er.
    + simpl. now rewrite E.
    + simpl. rewrite E. exact H.
Qed.

Lemma tidy_strip b s : tidy b s = true -> tidy false (strip s) = true.
Proof.
  intros H. unfold strip. apply tidy_rstrip. eapply tidy_lstrip. exact H.
Qed.

Lemma rstrip_idem p s : rstrip_by p (rstrip_by p s) = rstrip_by p s.
Proof.
  induction s as [|c tl IH]; [reflexivity|]. simpl.
  destruct (rstrip_by p tl) as [|d r] eqn:E.
  - destruct (p c) eqn:Ep; [reflexivity|]. simpl. now rewrite Ep.
  - remember (String d r) as x eqn:Ex. simpl. rewrite IH. now subst x.
Qed.

Lemma lstrip_clean_head p s : clean_head p (lstrip_by p s).
Proof.
  induction s as [|c tl IH]; simpl; [exact I|].
  destruct (p c) eqn:E; [exact IH | exact E].
Qed.

Lemma lstrip_fixed p s : clean_head p s -> lstrip_by p s = s.
Proof. destruct s as [|c tl]; simpl; [reflexivity|]. now intros ->. Qed.

Lemma rstrip_clean_head p s :
  clean_head p s -> clean_head p (rstrip_by p s).
Proof.
  destruct s as [|c tl]; simpl; [exact id|]. intros E.
  destruct (rstrip_by p tl); simpl; [now rewrite E | exact E].
Qed.

Lemma strip_idem s : strip (strip s) = strip s.
Proof.
  unfold strip.
  rewrite (lstrip_fixed is_space (rstrip_by is_space (lstrip_by is_space s))).
  - apply rstrip_idem.
  - apply rstrip_clean_head, lstrip_clean_head.
Qed.

(* ------------------------------------------------------------------ *)
(** ** The matcher *)

Lemma eat_suffix f w s s1 : eat f w s = Some s1 -> suffix_of s1 s.
Proof.
  revert s. induction w as [|a w IH]; intros s; simpl.
  - intros [= ->]. apply suffix_refl.
  - destruct s as [|b s]; [discriminate|].
    destruct (chr_eq f a b); [|discriminate].
    intros H. eapply suffix_trans; [apply IH; exact H | apply suffix_tail].
Qed.

Lemma orelse_some {A : Type} (x y : option A) res :
  orelse x y = Some res -> x = Some res \/ y = Some res.
Proof. destruct x; simpl; intros H; [left | right]; exact H. Qed.

Section MatcherFacts.
Variable f : flags.
Variable A : Type.

Lemma star_loop_suffix body greedy :
  hands_suffix body ->
  forall (k : cont A) fuel s cs res,
    star_loop A body greedy k fuel s cs = Some res ->
    exists s' cs', suffix_of s' s /\ k s' cs' = Some res.
Proof.
  intros Hb k fuel.
  induction fuel as [|n IH]; intros s cs res; simpl.
  - intros H. exists s, cs. split; [apply suffix_refl | exact H].
  - intros H.
    assert (Hcase :
      body s cs (fun s1 cs1 =>
                   if String.length s1 <? String.length s
                   then star_loop A body greedy k n s1 cs1 else None)
      = Some res \/ k s cs = Some res).
    { destruct greedy; apply orelse_some in H; tauto. }
    destruct Hcase as [H1|H1].
    + apply Hb in H1. destruct H1 as (s1 & cs1 & Hs1 & H1).
      destruct (String.length s1 <? String.length s); [|discriminate].
      apply IH in H1. destruct H1 as (s2 & cs2 & Hs2 & H2).
      exists s2, cs2. split; [eapply suffix_trans; eassumption | exact H2].
    + exists s, cs. split; [apply suffix_refl | exact H1].
Qed.

Lemma go_suffix r : hands_suffix (go f A r).
Proof.
  induction r as [|c| |neg p|r1 IH1 r2 IH2|r1 IH1 r2 IH2|g r1 IH1|n r1 IH1|n];
    intros s cs k res; cbn [go].
  - intros H. exists s, cs. split; [apply suffix_refl | exact H].
  - destruct s as [|d tl]; [discriminate|].
    destruct (chr_eq f c d); [|discriminate].
    intros H. exists tl, cs. split; [apply suffix_tail | exact H].
  - destruct s as [|d tl]; [discriminate|].
    destruct (any_hit f d); [|discriminate].
    intros H. exists tl, cs. split; [apply suffix_tail | exact H].
  - destruct s as [|d tl]; [discriminate|].
    destruct (cls_hit f neg p d); [|discriminate].
    intros H. exists tl, cs. split; [apply suffix_tail | exact H].
  - intros H. apply IH1 in H. destruct H as (s1 & cs1 & Hs1 & H).
    apply IH2 in H. destruct H as (s2 & cs2 & Hs2 & H).
    exists s2, cs2. split; [eapply suffix_trans; eassumption | exact H].
  - intros H. apply orelse_some in H.
    destruct H as [H|H]; [apply IH1 in H | apply IH2 in H]; exact H.
  - intros H.
    exact (star_loop_suffix (go f A r1) g IH1 k (String.length s) s cs res H).
  - intros H. apply IH1 in H. destruct H as (s1 & cs1 & Hs1 & H).
    exists s1, ((n, consumed s s1) :: cs1). split; assumption.
  - destruct (cap n cs) as [w|]; [|discriminate].
    destruct (eat f w s) as [s1|] eqn:E; [|discriminate].
    intros H. exists s1, cs. split; [eapply eat_suffix; exact E | exact H].
Qed.
End MatcherFacts.

Lemma match_at_spec f r adv s s' cs :
  match_at f r adv s = Some (s', cs) ->
  suffix_of s' s /\ (adv = true -> s' <> s).
Proof.
  unfold match_at. intros H. apply go_suffix in H.
  destruct H as (s1 & cs1 & Hs & H). unfold accept in H.
  destruct (adv && (String.length s1 =? String.length s)) eqn:E;
    [discriminate|].
  injection H as <- <-. split; [exact Hs|].
  intros -> ->. rewrite Nat.eqb_refl in E. discriminate.
Qed.

Lemma hit_at_head f r adv s s' cs :
  match_at f r adv s = Some (s', cs) ->
  s = consumed s s' ++ s'
  /\ match_at f r (adv && true) (consumed s s' ++ s') = Some (s', cs)
  /\ (consumed s s' = "" -> adv = false).
Proof.
  intros E. destruct (match_at_spec _ _ _ _ _ _ E) as [Hs Hadv].
  pose proof (consumed_spec _ _ Hs) as Hc.
  split; [exact Hc|]. split.
  - rewrite andb_true_r, <- Hc. exact E.
  - intros Ht. destruct adv; [|reflexivity]. exfalso.
    apply Hadv; [reflexivity|]. rewrite Hc, Ht. reflexivity.
Qed.

(** What [search_from] returns: the input cut in three, a match of the
    pattern at the cut, and an empty first match only when that is
    allowed. *)
Lemma search_from_spec f r adv s h :
  search_from f r adv s = Some h ->
  s = h_pre h ++ h_text h ++ h_rest h
  /\ match_at f r (adv && is_empty (h_pre h)) (h_text h ++ h_rest h)
     = Some (h_rest h, h_caps h)
  /\ (h_pre h = "" -> h_text h = "" -> adv = false).
Proof.
  revert adv h. induction s as [|c tl IH]; intros adv h; cbn [search_from].
  - destruct (match_at f r adv "") as [[s' cs]|] eqn:E; [|discriminate].
    intros [= <-]. cbn [h_pre h_text h_rest h_caps].
    destruct (hit_at_head _ _ _ _ _ _ E) as (H1 & H2 & H3).
    split; [exact H1|]. split; [exact H2|]. intros _. exact H3.
  - destruct (match_at f r adv (String c tl)) as [[s' cs]|] eqn:E.
    + intros [= <-]. cbn [h_pre h_text h_rest h_caps].
      destruct (hit_at_head _ _ _ _ _ _ E) as (H1 & H2 & H3).
      split; [exact H1|]. split; [exact H2|]. intros _. exact H3.
    + destruct (search_from f r false tl) as [h'|] eqn:E'; [|discriminate].
      intros [= <-]. cbn [h_pre h_text h_rest h_caps].
      destruct (IH _ _ E') as (H1 & H2 & _).
      split; [|split].
      * cbn [append]. now rewrite <- H1.
      * rewrite andb_false_r. rewrite <- H2. reflexivity.
      * discriminate.
Qed.

Lemma search_from_leftmost f r adv s h :
  search_from f r adv s = Some h ->
  none_inside f r adv (h_pre h) (h_text h ++ h_rest h).
Proof.
  revert adv h. induction s as [|c tl IH]; intros adv h; cbn [search_from].
  - destruct (match_at f r adv "") as [[s' cs]|]; [|discriminate].
    intros [= <-] a c b E. cbn [h_pre] in E. destruct a; discriminate.
  - destruct (match_at f r adv (String c tl)) as [[s' cs]|] eqn:E.
    + intros [= <-] a c' b E'. cbn [h_pre] in E'. destruct a; discriminate.
    + destruct (search_from f r false tl) as [h'|] eqn:E'; [|discriminate].
      intros [= <-]. cbn [h_pre h_text h_rest].
      destruct (search_from_spec _ _ _ _ _ E') as (Hs & _).
      intros a c' b Ea. destruct a as [|x a].
      * cbn [append] in Ea. injection Ea as <- <-.
        cbn [is_empty truthy negb]. rewrite andb_true_r.
        cbn [append]. rewrite <- Hs. exact E.
      * cbn [append] in Ea. injection Ea as <- Ea.
        cbn [is_empty truthy negb]. rewrite andb_false_r.
        specialize (IH _ _ E' a c' b Ea). exact IH.
Qed.

(** The fuel of [finditer] is enough: the scan stops because the search
    fails, never because the fuel runs out. *)
Lemma scan_chain f r fuel :
  forall (adv : bool) (s : string),
    2 * String.length s + (if adv then 0 else 1) < fuel ->
    chain f r adv s (fst (scan fuel f r adv s)) (snd (scan fuel f r adv s)).
Proof.
  induction fuel as [|n IH]; intros adv s Hf; [lia|].
  cbn [scan]. destruct (search_from f r adv s) as [h|] eqn:E.
  - destruct (scan n f r (is_empty (h_text h)) (h_rest h)) as [hs tl] eqn:Es.
    cbn [fst snd]. eapply chain_step; [exact E|].
    replace hs with (fst (scan n f r (is_empty (h_text h)) (h_rest h)))
      by now rewrite Es.
    replace tl with (snd (scan n f r (is_empty (h_text h)) (h_rest h)))
      by now rewrite Es.
    apply IH.
    destruct (search_from_spec _ _ _ _ _ E) as (Hs & _ & Hadv).
    assert (Hl : String.length s = String.length (h_pre h)
                 + String.length (h_text h) + String.length (h_rest h)).
    { rewrite Hs at 1. rewrite !length_append. lia. }
    destruct (h_text h) as [|c t] eqn:Et; cbn [is_empty truthy negb].
    + destruct (h_pre h) as [|c' p] eqn:Ep.
      * rewrite (Hadv eq_refl eq_refl) in Hf. simpl in Hl. lia.
      * simpl in Hl. destruct adv; lia.
    + simpl in Hl. destruct adv; lia.
  - cbn [fst snd]. apply chain_done. exact E.
Qed.

Lemma finditer_chain f r s :
  chain f r false s (fst (finditer f r s)) (snd (finditer f r s)).
Proof. unfold finditer. apply scan_chain. lia. Qed.

(** The matches lie side by side, in the order of the list. *)
Lemma chain_tiles f r adv s hs tl :
  chain f r adv s hs tl ->
  String.concat "" (map (fun h => h_pre h ++ h_text h) hs) ++ tl = s.
Proof.
  induction 1 as [adv s _|adv s h hs tl E _ IH]; [reflexivity|].
  destruct (search_from_spec _ _ _ _ _ E) as (Hs & _ & _).
  cbn [map]. rewrite concat_cons, !append_assoc, IH. symmetry. exact Hs.
Qed.

Lemma chain_hits f r adv s hs tl :
  chain f r adv s hs tl -> Forall (first_match f r) hs.
Proof.
  induction 1 as [adv s _|adv s h hs tl E _ IH]; constructor; [|exact IH].
  split.
  - destruct (search_from_spec _ _ _ _ _ E) as (_ & Hm & _).
    eexists. exact Hm.
  - exists adv. eapply search_from_leftmost. exact E.
Qed.

Lemma chain_nil_iff f r s hs tl :
  chain f r false s hs tl -> (hs = [] <-> search f r s = None).
Proof.
  unfold search. inversion 1; subst; split; intros H'; congruence.
Qed.

(** *** Patterns that begin with [<] *)

Lemma lt_only_lt f d : chr_eq f "<" d = true -> d = "<"%char.
Proof.
  unfold chr_eq.
  destruct d as [[] [] [] [] [] [] [] []]; destruct (ignorecase f);
    vm_compute; intros H; try discriminate H; reflexivity.
Qed.

Lemma match_at_no_lt f r adv s :
  starts_with_lt r -> has_char "<" s = false -> match_at f r adv s = None.
Proof.
  intros [r' ->] H. unfold match_at. cbn [go].
  destruct s as [|d tl]; [reflexivity|].
  destruct (chr_eq f "<" d) eqn:E; [|reflexivity].
  apply lt_only_lt in E. subst d. simpl in H. discriminate.
Qed.

Lemma search_from_no_lt f r adv s :
  starts_with_lt r -> has_char "<" s = false -> search_from f r adv s = None.
Proof.
  intros Hr. revert adv.
  induction s as [|d tl IH]; intros adv H; cbn [search_from].
  - now rewrite match_at_no_lt.
  - rewrite match_at_no_lt by assumption.
    cbn [has_char] in H. apply orb_false_iff in H. destruct H as [_ H].
    now rewrite IH.
Qed.

Lemma sub_with_no_match f r repl s :
  search_from f r false s = None -> sub_with f r repl s = s.
Proof.
  intros H. unfold sub_with, finditer.
  replace (2 * String.length s + 2) with (S (2 * String.length s + 1)) by lia.
  cbn [scan]. rewrite H. reflexivity.
Qed.

Lemma sub_no_lt f r repl s :
  starts_with_lt r -> has_char "<" s = false -> sub f r repl s = s.
Proof.
  intros Hr H. unfold sub. apply sub_with_no_match.
  now apply search_from_no_lt.
Qed.

(** *** The pattern [\s+] *)

Lemma star_spaces (A : Type) (k : cont A) res cs fuel :
  forall s0,
    String.length s0 <= fuel ->
    k (lstrip_by is_space s0) cs = Some res ->
    star_loop A (go no_flags A (Cls false is_space)) true k fuel s0 cs
    = Some res.
Proof.
  induction fuel as [|n IH]; intros s0 Hl Hk.
  - destruct s0; [exact Hk | simpl in Hl; lia].
  - cbn [star_loop go]. destruct s0 as [|c tl]; [simpl; exact Hk|].
    unfold cls_hit. cbn [ignorecase no_flags xorb].
    cbn [lstrip_by] in Hk. destruct (is_space c) eqn:E.
    + replace (String.length tl <? String.length (String c tl)) with true
        by (symmetry; apply Nat.ltb_lt; simpl; lia).
      rewrite IH; [reflexivity | simpl in Hl; lia | exact Hk].
    + simpl. exact Hk.
Qed.

Lemma match_spaces adv s :
  match_at no_flags spaces_re adv s =
  match s with
  | String c tl => if is_space c then Some (lstrip_by is_space tl, []) else None
  | EmptyString => None
  end.
Proof.
  unfold match_at, spaces_re, Plus. cbn [go].
  destruct s as [|c tl]; [reflexivity|].
  unfold cls_hit at 1. cbn [ignorecase no_flags xorb].
  destruct (is_space c); [|reflexivity].
  apply star_spaces; [lia|]. unfold accept.
  pose proof (suffix_length _ _ (lstrip_suffix tl)) as Hl.
  replace (String.length (lstrip_by is_space tl) =? String.length (String c tl))
    with false by (symmetry; apply Nat.eqb_neq; simpl; lia).
  now rewrite andb_false_r.
Qed.

Lemma search_spaces s :
  forall adv,
    (search_from no_flags spaces_re adv s = None /\ squeeze false s = s)
    \/ exists h,
        search_from no_flags spaces_re adv s = Some h
        /\ is_empty (h_text h) = false
        /\ String.length (h_rest h) < String.length s
        /\ squeeze false s = h_pre h ++ String " " (squeeze false (h_rest h)).
Proof.
  induction s as [|c tl IH]; intros adv; cbn [search_from];
    rewrite match_spaces.
  - left. split; reflexivity.
  - destruct (is_space c) eqn:E.
    + right. eexists. split; [reflexivity|].
      cbn [h_pre h_text h_rest h_caps].
      pose proof (lstrip_suffix tl) as Hs.
      pose proof (suffix_length _ _ Hs) as Hl.
      split; [|split].
      * assert (Hc : suffix_of (lstrip_by is_space tl) (String c tl))
          by (eapply suffix_trans; [exact Hs | apply suffix_tail]).
        apply consumed_spec in Hc.
        destruct (consumed (String c tl) (lstrip_by is_space tl));
          [|reflexivity].
        simpl in Hc. rewrite <- Hc in Hl. simpl in Hl. lia.
      * simpl. lia.
      * simpl. rewrite E. now rewrite squeeze_true_lstrip.
    + destruct (IH false) as [[Hn Hq]|(h & Hh & He & Hl & Hq)].
      * left. rewrite Hn. split; [reflexivity|]. simpl. now rewrite E, Hq.
      * right. rewrite Hh. eexists. split; [reflexivity|].
        cbn [h_pre h_text h_rest h_caps].
        split; [exact He|]. split; [simpl; lia|].
        simpl. now rewrite E, Hq.
Qed.

Lemma scan_squeeze fuel :
  forall (adv : bool) (s : string),
    String.length s < fuel ->
    String.concat ""
      (map (fun h => h_pre h ++ " ") (fst (scan fuel no_flags spaces_re adv s)))
    ++ snd (scan fuel no_flags spaces_re adv s)
    = squeeze false s.
Proof.
  induction fuel as [|n IH]; intros adv s Hf; [lia|].
  cbn [scan].
  destruct (search_spaces s adv) as [[Hn Hq]|(h & Hh & He & Hl & Hq)].
  - rewrite Hn. simpl. now rewrite Hq.
  - rewrite Hh.
    specialize (IH (is_empty (h_text h)) (h_rest h) ltac:(lia)).
    destruct (scan n no_flags spaces_re (is_empty (h_text h)) (h_rest h))
      as [hs tl].
    cbn [fst snd map] in *. rewrite concat_cons, !append_assoc, IH, Hq.
    reflexivity.
Qed.

(** [re.sub(r"\s+", " ", s)] squeezes the runs of whitespace. *)
Lemma sub_spaces s : sub no_flags spaces_re " " s = squeeze false s.
Proof.
  unfold sub, sub_with, finditer.
  pose proof (scan_squeeze (2 * String.length s + 2) false s ltac:(lia)) as H.
  destruct (scan (2 * String.length s + 2) no_flags spaces_re false s).
  exact H.
Qed.

(* ------------------------------------------------------------------ *)
(** ** The text normalizer *)

Lemma script_re_lt : starts_with_lt script_re.
Proof. eexists. reflexivity. Qed.

Lemma tag_re_lt : starts_with_lt tag_re.
Proof. eexists. reflexivity. Qed.

Section Normalizer.
Context {L : PyLib}.

(** The normalizer's output is tidy and trimmed. *)
Lemma strip_html_tidy text :
  tidy false (strip_html text) = true
  /\ strip (strip_html text) = strip_html text.
Proof.
  unfold strip_html. rewrite sub_spaces. split.
  - eapply tidy_strip. apply tidy_squeeze.
  - apply strip_idem.
Qed.

(** A tidy, trimmed text without markup or references is left alone. *)
Lemma strip_html_fixed t :
  contains "<" t = false -> contains "&" t = false ->
  tidy false t = true -> strip t = t ->
  strip_html t = t.
Proof.
  intros Hlt Hamp Ht Hs. unfold strip_html.
  rewrite contains_char in Hlt.
  rewrite (sub_no_lt _ _ _ _ script_re_lt Hlt).
  rewrite (sub_no_lt _ _ _ _ tag_re_lt Hlt).
  unfold unescape. rewrite Hamp. cbn [negb].
  rewrite sub_spaces, (squeeze_tidy _ _ Ht). exact Hs.
Qed.

(** C3, as amended.  Normalizing twice gives what normalizing once gives,
    for every text whose normalized form holds neither a [<] nor a [&]:
    nothing is left there for the tag patterns or for [html.unescape] to
    rewrite, and its whitespace is already squeezed and trimmed. *)
Theorem strip_html_idempotent_when_plain (s : string) :
  contains "<" (strip_html s) = false ->
  contains "&" (strip_html s) = false ->
  strip_html (strip_html s) = strip_html s.
Proof.
  intros Hlt Hamp. destruct (strip_html_tidy s) as [Ht Hs].
  now apply strip_html_fixed.
Qed.
End Normalizer.

(* ------------------------------------------------------------------ *)
(** ** The evidence scorer *)

Lemma existsb_filter {A : Type} (p : A -> bool) l :
  existsb p l = match filter p l with [] => false | _ :: _ => true end.
Proof.
  induction l as [|x tl IH]; simpl; [reflexivity|].
  destruct (p x); simpl; [reflexivity | exact IH].
Qed.

Lemma existsb_flat {A B : Type} (p : A -> B -> bool)
      (xs : list A) (ys : list B) :
  existsb (fun x => existsb (p x) ys) xs =
  match flat_map (fun x => map (fun y => (x, y)) (filter (p x) ys)) xs with
  | [] => false
  | _ :: _ => true
  end.
Proof.
  induction xs as [|x tl IH]; simpl; [reflexivity|].
  rewrite existsb_filter.
  destruct (filter (p x) ys); simpl; [exact IH | reflexivity].
Qed.

Ltac split_hits :=
  repeat match goal with
         | |- context [match ?l with [] => _ | _ :: _ => _ end] => destruct l
         end;
  cbn [contribution]; lia.

Section Score.
Context {L : PyLib}.

(** C1.  The score is the sum of the four channels' contributions, a
    channel contributing its weight once if any of its tokens matches and
    nothing otherwise, however many match; the verdict is true exactly
    when the score reaches the threshold, a score equal to the threshold
    included; and when only the sender's domain matches, the score is the
    weight of the domain channel. *)
Theorem score_is_sum_of_channels (cfg : rules) (e : email) :
  let w := rule_weights cfg in
  jbhunt_score cfg e =
    (contribution (domain_hits cfg e) (w_from_domain w)
     + contribution (name_hits cfg e) (w_sender_name w)
     + contribution (host_hits cfg e) (w_host w)
     + contribution (phrase_hits cfg e) (w_phrase w))%Z
  /\ (score_jbhunt cfg e = true <-> (threshold cfg <= jbhunt_score cfg e)%Z)
  /\ (jbhunt_score cfg e = threshold cfg -> score_jbhunt cfg e = true)
  /\ (domain_hits cfg e <> [] -> name_hits cfg e = [] ->
      host_hits cfg e = [] -> phrase_hits cfg e = [] ->
      jbhunt_score cfg e = w_from_domain w).
Proof.
  intros w.
  assert (E : jbhunt_score cfg e =
    (contribution (domain_hits cfg e) (w_from_domain w)
     + contribution (name_hits cfg e) (w_sender_name w)
     + contribution (host_hits cfg e) (w_host w)
     + contribution (phrase_hits cfg e) (w_phrase w))%Z).
  { unfold jbhunt_score, domain_hits, sender_domain, name_hits, host_hits,
      phrase_hits. fold w.
    rewrite existsb_flat, !existsb_filter.
    destruct (search no_flags from_re (or_empty (e_from e))) as [h|].
    - destruct (truthy (lower (group 2 (h_caps h)))); cbn [andb];
        [rewrite existsb_filter|]; split_hits.
    - split_hits. }
  split; [exact E|]. split; [|split].
  - unfold score_jbhunt. apply Z.leb_le.
  - intros H. unfold score_jbhunt. rewrite H. apply Z.leb_refl.
  - intros Hd Hn Hh Hp. rewrite E, Hn, Hh, Hp.
    destruct (domain_hits cfg e); [congruence|]. cbn [contribution]. lia.
Qed.

(** C4.  The header's domain is lowercased, the configured suffix is
    not: for the header [Ops <Ops@JBHunt.com>] the suffix [jbhunt.com]
    grants the domain weight and the suffix [JBHunt.com] grants nothing. *)
Theorem suffix_case_decides_domain_evidence :
  sender_domain bare_mail = Some "jbhunt.com"
  /\ jbhunt_score (domain_rules "jbhunt.com") bare_mail = 3%Z
  /\ score_jbhunt (domain_rules "jbhunt.com") bare_mail = true
  /\ domain_hits (domain_rules "JBHunt.com") bare_mail = []
  /\ jbhunt_score (domain_rules "JBHunt.com") bare_mail = 0%Z
  /\ score_jbhunt (domain_rules "JBHunt.com") bare_mail = false.
Proof. repeat split; vm_compute; reflexivity. Qed.
End Score.

(* ------------------------------------------------------------------ *)
(** ** The subject classifier *)

Lemma loop_is_find pats s :
  subject_category_loop pats s =
  match find (wins s) pats with
  | Some (key, _) => key
  | None => "OTHER"
  end.
Proof.
  induction pats as [|[key pat] rest IH]; simpl; [reflexivity|].
  unfold wins at 1, matches. cbn [fst snd].
  destruct (String.eqb key "ID_PATTERN"); cbn [negb andb]; [exact IH|].
  destruct (search no_flags pat s); [reflexivity | exact IH].
Qed.

Lemma find_first {A : Type} (p : A -> bool) before x after :
  p x = true -> forallb (fun y => negb (p y)) before = true ->
  find p (before ++ x :: after) = Some x.
Proof.
  intros Hx. induction before as [|y tl IH]; simpl; intros H.
  - now rewrite Hx.
  - apply andb_prop in H. destruct H as [Hy H].
    destruct (p y); [discriminate | auto].
Qed.

Lemma find_none {A : Type} (p : A -> bool) l :
  forallb (fun y => negb (p y)) l = true -> find p l = None.
Proof.
  induction l as [|y tl IH]; simpl; [reflexivity|]. intros H.
  apply andb_prop in H. destruct H as [Hy H].
  destruct (p y); [discriminate | auto].
Qed.

(** C2.  On the lowercased subject (an absent one read as empty), the
    classifier returns the key of the first entry, in the order of the
    configuration and the identifier pattern set aside, whose pattern
    matches; so of two matching entries the one declared first wins; it
    returns [OTHER] when no entry matches, in particular for an empty
    subject unless an entry matches the empty string. *)
Theorem subject_category_first_match (cfg : rules) (subject : option string) :
  let s := lower (or_empty subject) in
  let pats := subject_patterns cfg in
  subject_category cfg subject =
    match find (wins s) pats with
    | Some (key, _) => key
    | None => "OTHER"
    end
  /\ (forall before key pat after,
        pats = (before ++ (key, pat) :: after)%list ->
        wins s (key, pat) = true ->
        forallb (fun kp => negb (wins s kp)) before = true ->
        subject_category cfg subject = key)
  /\ (forallb (fun kp => negb (wins s kp)) pats = true ->
      subject_category cfg subject = "OTHER")
  /\ (forallb (fun kp => negb (wins "" kp)) pats = true ->
      subject_category cfg None = "OTHER"
      /\ subject_category cfg (Some "") = "OTHER").
Proof.
  intros s pats. unfold subject_category. fold s pats.
  split; [apply loop_is_find|]. split; [|split].
  - intros before key pat after E Hw Hb. rewrite loop_is_find, E.
    now rewrite (find_first _ _ _ _ Hw Hb).
  - intros H. now rewrite loop_is_find, (find_none _ _ H).
  - intros H. cbn [or_empty lower]. rewrite loop_is_find, (find_none _ _ H).
    split; reflexivity.
Qed.

(* ------------------------------------------------------------------ *)
(** ** The identifier extractor *)

(** C6.  With the identifier pattern configured, the extractor returns
    the items of the matches that [findall] finds in the subject as it
    was given (not lowercased, an absent one read as empty): each match
    is the first one from where the one before ended, the matches and
    the text between them lie side by side from left to right, nothing
    is left to match after the last, and the list is empty exactly when
    the pattern matches nowhere.  Equal identifiers are both kept, and
    [Load #123 and #456] gives [123] and [456]. *)
Theorem extract_load_ids_findall :
  (forall (cfg : rules) (subject : option string) (id_pat : regex),
      dict_get "ID_PATTERN" (subject_patterns cfg) = inr id_pat ->
      let s := or_empty subject in
      exists hs tail,
        extract_load_ids cfg subject = inr (map (item_of id_pat) hs)
        /\ chain no_flags id_pat false s hs tail
        /\ String.concat "" (map (fun h => h_pre h ++ h_text h) hs) ++ tail
           = s
        /\ Forall (first_match no_flags id_pat) hs
        /\ (hs = [] <-> search no_flags id_pat s = None))
  /\ extract_load_ids (id_rules hash_digits) (Some "Load #123 and #456")
     = inr [Str "123"; Str "456"]
  /\ extract_load_ids (id_rules hash_digits) (Some "#7 then #7 again")
     = inr [Str "7"; Str "7"]
  /\ extract_load_ids (id_rules upper_ref) (Some "Ref AB12 or ab12")
     = inr [Str "AB12"]
  /\ extract_load_ids (id_rules hash_digits) None = inr [].
Proof.
  split; [|repeat split; vm_compute; reflexivity].
  intros cfg subject id_pat Hid s.
  pose proof (finditer_chain no_flags id_pat s) as Hc.
  exists (fst (finditer no_flags id_pat s)), (snd (finditer no_flags id_pat s)).
  split; [|split; [exact Hc|split; [|split]]].
  - unfold extract_load_ids. rewrite Hid. py_simpl. reflexivity.
  - eapply chain_tiles. exact Hc.
  - eapply chain_hits. exact Hc.
  - eapply chain_nil_iff. exact Hc.
Qed.

(* ------------------------------------------------------------------ *)
(** ** The stamp locator *)

Lemma max_of_spec i tl :
  In (max_of i tl) (i :: tl)
  /\ forall j, In j (i :: tl) -> (j <= max_of i tl)%Z.
Proof.
  unfold max_of. revert i. induction tl as [|x tl IH]; intros i; simpl.
  - split; [now left|]. intros j [<-|[]]. lia.
  - destruct (IH (Z.max i x)) as [Hin Hle]. split.
    + destruct Hin as [Hin|Hin]; [|now right; right].
      rewrite <- Hin. destruct (Z.max_spec i x) as [[_ ->]|[_ ->]]; auto.
    + intros j [<-|[<-|Hj]].
      * etransitivity; [|apply Hle; now left]. lia.
      * etransitivity; [|apply Hle; now left]. lia.
      * apply Hle. now right.
Qed.

Lemma Qltb_lt x y : Qltb x y = true <-> (x < y)%Q.
Proof.
  unfold Qltb. rewrite negb_true_iff. split; intros H.
  - apply Qnot_le_lt. intros Hle. apply Qle_bool_iff in Hle. congruence.
  - destruct (Qle_bool y x) eqn:E; [|reflexivity].
    apply Qle_bool_iff in E. exfalso. exact (Qlt_not_le _ _ H E).
Qed.

Lemma Qltb_ge x y : Qltb x y = false <-> (y <= x)%Q.
Proof.
  unfold Qltb. rewrite negb_false_iff. apply Qle_bool_iff.
Qed.

(** C5.  On the lowercased text, every indicator that occurs
    (lowercased too) is recorded with the index of its last occurrence;
    without any the result is none; otherwise, with [pos] the greatest
    recorded index and [fraction = pos / max(length, 1)], the result is
    header below 0.2, body from 0.2 to below 0.7, and footer from 0.7 on.
    A stamp at index 95, 15 and 50 of a text of 100 characters gives
    footer, header and body. *)
Theorem stamp_position_buckets (cfg : rules) (text_body : option string) :
  let t := lower (or_empty text_body) in
  let found :=
    filter (fun ind => contains (lower ind) t) (footer_indicators cfg) in
  let idxs := map (fun ind => rfind t (lower ind)) found in
  (forall ind, In ind found ->
     exists i, rfind t (lower ind) = Z.of_nat i
               /\ last_occurrence t (lower ind) i)
  /\ (found = [] -> stamp_position cfg text_body = None)
  /\ (found <> [] ->
      exists pos,
        In pos idxs /\ (forall j, In j idxs -> (j <= pos)%Z)
        /\ let fraction :=
             (inject_Z pos
              / inject_Z (Z.max (Z.of_nat (String.length t)) 1))%Q in
           ((fraction < 2 # 10)%Q ->
            stamp_position cfg text_body = Some "header")
           /\ ((2 # 10 <= fraction)%Q -> (fraction < 7 # 10)%Q ->
               stamp_position cfg text_body = Some "body")
           /\ ((7 # 10 <= fraction)%Q ->
               stamp_position cfg text_body = Some "footer"))
  /\ (String.length (stamped_text 95 0) = 100
      /\ rfind (lower (stamped_text 95 0)) "stamp" = 95%Z
      /\ stamp_position (stamp_rules "STAMP") (Some (stamped_text 95 0))
         = Some "footer")
  /\ (String.length (stamped_text 15 80) = 100
      /\ rfind (lower (stamped_text 15 80)) "stamp" = 15%Z
      /\ stamp_position (stamp_rules "STAMP") (Some (stamped_text 15 80))
         = Some "header")
  /\ (String.length (stamped_text 50 45) = 100
      /\ rfind (lower (stamped_text 50 45)) "stamp" = 50%Z
      /\ stamp_position (stamp_rules "STAMP") (Some (stamped_text 50 45))
         = Some "body").
Proof.
  intros t found idxs. split; [|split; [|split]].
  - intros ind Hin. apply filter_In in Hin. destruct Hin as [_ Hc].
    apply rfind_last. exact Hc.
  - intros E. unfold stamp_position. fold t found. rewrite E. reflexivity.
  - intros Hne. unfold stamp_position. fold t found idxs.
    destruct idxs as [|i tl] eqn:Ei.
    { destruct found; [congruence | discriminate]. }
    exists (max_of i tl). destruct (max_of_spec i tl) as [Hin Hmax].
    split; [exact Hin|]. split; [exact Hmax|].
    cbv zeta.
    set (fraction := (inject_Z (max_of i tl)
                      / inject_Z (Z.max (Z.of_nat (String.length t)) 1))%Q).
    split; [|split].
    + intros H. apply Qltb_lt in H. now rewrite H.
    + intros H1 H2. apply Qltb_ge in H1. apply Qltb_lt in H2.
      now rewrite H1, H2.
    + intros H. assert (H1 : (2 # 10 <= fraction)%Q).
      { eapply Qle_trans; [|exact H]. discriminate. }
      apply Qltb_ge in H1, H. now rewrite H1, H.
  - repeat split; vm_compute; reflexivity.
Qed.

(* ------------------------------------------------------------------ *)
(** ** The reply-necessity engine *)

Section Classify.
Context {L : PyLib}.

(** C7.  With the identifier pattern configured, [classify] returns,
    and its verdict follows the category of the subject: true when the
    category is in the true list, whether or not it is in the false list
    as well; false when it is in the false list only; unknown, with the
    reason [No strong subject signal.], when it is in neither. *)
Theorem reply_necessity_precedence (cfg : rules) (e : email)
        (id_pat : regex) :
  dict_get "ID_PATTERN" (subject_patterns cfg) = inr id_pat ->
  exists r,
    classify cfg e = inr r
    /\ c_subject_category r = subject_category cfg (e_subject e)
    /\ (needs_response_pred r, reason r) =
       (let cat := c_subject_category r in
        if mem cat (reply_true_if cfg)
        then (Some true,
              "Subject category '" ++ cat ++ "' indicates action is needed.")
        else if mem cat (reply_false_if cfg)
        then (Some false,
              "Subject category '" ++ cat ++ "' is informational.")
        else (None, "No strong subject signal."))
    /\ (mem (c_subject_category r) (reply_true_if cfg) = true ->
        needs_response_pred r = Some true)
    /\ (mem (c_subject_category r) (reply_true_if cfg) = false ->
        mem (c_subject_category r) (reply_false_if cfg) = true ->
        needs_response_pred r = Some false)
    /\ (mem (c_subject_category r) (reply_true_if cfg) = false ->
        mem (c_subject_category r) (reply_false_if cfg) = false ->
        needs_response_pred r = None
        /\ reason r = "No strong subject signal.").
Proof.
  intros Hid. unfold classify, extract_load_ids. rewrite Hid. py_simpl.
  set (cat := subject_category cfg (Some (or_empty (e_subject e)))).
  assert (Hcat : cat = subject_category cfg (e_subject e)).
  { unfold cat, subject_category. now destruct (e_subject e). }
  destruct (mem cat (reply_true_if cfg)) eqn:Ht;
    [|destruct (mem cat (reply_false_if cfg)) eqn:Hf];
    eexists; (split; [reflexivity|]); cbn;
      rewrite ?Ht, ?Hf; repeat split; auto; try discriminate; congruence.
Qed.
End Classify.

(* ------------------------------------------------------------------ *)
(** ** The content decoder *)

Section Decoder.
Context {L : PyLib}.

Lemma padded_length data :
  String.length (data ++ replicate (pad_count data) "=") mod 4 = 0
  /\ pad_count data < 4.
Proof.
  rewrite length_append, length_replicate. unfold pad_count.
  set (n := String.length data).
  assert (H : (0 <= (- Z.of_nat n) mod 4 < 4)%Z)
    by (apply Z.mod_pos_bound; lia).
  split; [|lia].
  apply Nat2Z.inj. rewrite Nat2Z.inj_mod, Nat2Z.inj_add, Z2Nat.id by lia.
  simpl Z.of_nat.
  rewrite Zplus_mod, Zmod_mod, <- Zplus_mod.
  replace (Z.of_nat n + - Z.of_nat n)%Z with 0%Z by lia. reflexivity.
Qed.

Lemma decode_returns d : exists s, _decode_base64url d = inr s.
Proof.
  unfold _decode_base64url.
  destruct (truthy d); [|eexists; reflexivity].
  destruct (urlsafe_b64decode _); py_simpl; simpl; [eexists; reflexivity|].
  destruct (b64decode d); simpl; eexists; reflexivity.
Qed.

(** C9.  The decoder returns a string for every input and never raises:
    the text of the base64url decoding of the input padded with [=] to a
    multiple of four characters when that decoding succeeds, else the
    text of its standard base64 decoding when that succeeds, else the
    input itself; the empty input gives the empty string. *)
Theorem decode_base64url_never_fails (data : string) :
  exists s,
    _decode_base64url data = inr s
    /\ s = (if truthy data then
             match urlsafe_b64decode
                     (data ++ replicate (pad_count data) "=") with
             | Some b => utf8_decode_replace b
             | None => match b64decode data with
                       | Some b => utf8_decode_replace b
                       | None => data
                       end
             end
           else "")
    /\ String.length (data ++ replicate (pad_count data) "=") mod 4 = 0
    /\ pad_count data < 4.
Proof.
  unfold _decode_base64url.
  destruct (truthy data); simpl.
  - destruct (urlsafe_b64decode _) as [b|]; py_simpl; simpl.
    + eexists; repeat split; try apply padded_length.
    + destruct (b64decode data); simpl; eexists; repeat split;
        apply padded_length.
  - eexists; repeat split; apply padded_length.
Qed.
End Decoder.

(* ------------------------------------------------------------------ *)
(** ** The walk over the parts *)

Section Walk.
Context {L : PyLib}.

Lemma visit_part_eq body mt data sub :
  visit_part body (Part mt data sub) =
  (body1 <- match sub with
            | Some ps => nested <- find_email_parts ps ;;
                         ret (fill_from body nested)
            | None => ret body
            end ;;
   body2 <- own_content mt data body1 ;;
   embedded_message mt data body2).
Proof. reflexivity. Qed.

Lemma keeps_refl b : keeps b b.
Proof. split; reflexivity. Qed.

Lemma keeps_trans a b c : keeps a b -> keeps b c -> keeps a c.
Proof.
  intros [H1 H2] [H3 H4]. split; intros H.
  - rewrite H3; rewrite H1; auto.
  - rewrite H4; rewrite H2; auto.
Qed.

Lemma keeps_set_plain b v :
  truthy (plain b) = false -> keeps b (set_plain b v).
Proof. intros H. split; simpl; [congruence | reflexivity]. Qed.

Lemma keeps_set_html b v :
  truthy (html b) = false -> keeps b (set_html b v).
Proof. intros H. split; simpl; [reflexivity | congruence]. Qed.

Ltac stays b := exists b; split; [reflexivity | apply keeps_refl].

Lemma fill_from_keeps b n : keeps b (fill_from b n).
Proof.
  unfold fill_from.
  destruct (truthy (plain b)) eqn:Tp;
    rewrite ?andb_false_r, ?andb_true_r; cbn [negb].
  - destruct (truthy (html b)) eqn:Th;
      rewrite ?andb_false_r, ?andb_true_r; cbn [negb].
    + apply keeps_refl.
    + destruct (truthy (html n));
        [apply keeps_set_html; exact Th | apply keeps_refl].
  - destruct (truthy (plain n)).
    + eapply keeps_trans; [apply keeps_set_plain; exact Tp|].
      cbn [set_plain html].
      destruct (truthy (html n) && negb (truthy (html b))) eqn:E.
      * apply keeps_set_html. cbn [set_plain html].
        apply andb_prop in E. destruct E as [_ E].
        now destruct (truthy (html b)).
      * apply keeps_refl.
    + destruct (truthy (html n) && negb (truthy (html b))) eqn:E.
      * apply keeps_set_html.
        apply andb_prop in E. destruct E as [_ E].
        now destruct (truthy (html b)).
      * apply keeps_refl.
Qed.

Lemma own_content_well mt d b :
  exists b', own_content mt d b = inr b' /\ keeps b b'.
Proof.
  unfold own_content.
  destruct (String.eqb (or_empty mt) "text/plain"
            && negb (truthy (plain b))) eqn:E1.
  - apply andb_prop in E1. destruct E1 as [_ E1].
    destruct d as [x|]; [|stays b].
    destruct (truthy x); [|stays b].
    destruct (decode_returns x) as (v & Ev). rewrite Ev. py_simpl.
    eexists; split; [reflexivity|]. apply keeps_set_plain.
    now destruct (truthy (plain b)).
  - destruct (String.eqb (or_empty mt) "text/html"
              && negb (truthy (html b))) eqn:E2.
    + apply andb_prop in E2. destruct E2 as [_ E2].
      destruct d as [x|]; [|stays b].
      destruct (truthy x); [|stays b].
      destruct (decode_returns x) as (v & Ev). rewrite Ev. py_simpl.
      eexists; split; [reflexivity|]. apply keeps_set_html.
      now destruct (truthy (html b)).
    + stays b.
Qed.

Lemma embedded_message_well mt d b :
  exists b', embedded_message mt d b = inr b' /\ keeps b b'.
Proof.
  unfold embedded_message.
  destruct (mime_is mt "message/rfc822"); [|stays b].
  destruct d as [x|]; [|stays b].
  destruct (truthy x); [|stays b].
  destruct (decode_returns x) as (v & Ev). rewrite Ev. py_simpl.
  eexists; split; [reflexivity|].
  destruct (truthy (plain b)) eqn:Tp; cbn [negb];
    [apply keeps_refl | apply keeps_set_plain; exact Tp].
Qed.

Lemma walk_parts_well l :
  Forall visits_well l ->
  forall b, exists b', walk_parts b l = inr b' /\ keeps b b'.
Proof.
  induction 1 as [|q tl Hq _ IH]; intros b; simpl.
  - stays b.
  - destruct (Hq b) as (b1 & E1 & K1). rewrite E1. py_simpl.
    destruct (IH b1) as (b2 & E2 & K2). exists b2. split; [exact E2|].
    eapply keeps_trans; eassumption.
Qed.

(** First found wins: every visit returns, and a field that already
    holds text comes out unchanged. *)
Lemma visit_part_well p : visits_well p.
Proof.
  induction p as [mt d sub IH] using part_nested_ind.
  intros b. rewrite visit_part_eq.
  assert (H1 : exists b1,
             match sub with
             | Some ps => nested <- find_email_parts ps ;;
                          ret (fill_from b nested)
             | None => ret b
             end = inr b1 /\ keeps b b1).
  { destruct sub as [ps|].
    - destruct (walk_parts_well ps IH no_bodies) as (n & En & _).
      unfold find_email_parts. rewrite En. py_simpl.
      eexists; split; [reflexivity | apply fill_from_keeps].
    - stays b. }
  destruct H1 as (b1 & E1 & K1). rewrite E1. py_simpl. clear E1 IH.
  destruct (own_content_well mt d b1) as (b2 & E2 & K2). rewrite E2.
  destruct (embedded_message_well mt d b2) as (b3 & E3 & K3).
  exists b3. split; [exact E3|].
  eapply keeps_trans; [exact K1|]. eapply keeps_trans; eassumption.
Qed.

Lemma find_email_parts_returns l : exists b, find_email_parts l = inr b.
Proof.
  destruct (walk_parts_well l) with (b := no_bodies) as (b & E & _).
  - apply Forall_forall. intros p _. apply visit_part_well.
  - exists b. exact E.
Qed.

Lemma own_content_rfc822 d b :
  own_content (Some "message/rfc822") d b = inr b.
Proof. reflexivity. Qed.

(** C10.  Visiting a part of type [message/rfc822] that carries data
    returns; after the part's children have had their turn, the plain
    field is the decoded data, as decoded and whole, when it was still
    empty, and is what it was when it already held text; the html field
    is not touched by the data; and a plain text captured before the
    visit is still there after it. *)
Theorem rfc822_fills_plain_once (body : bodies) (d : string)
        (sub : option (list part)) :
  truthy d = true ->
  exists body1 decoded result,
    match sub with
    | Some ps => exists nested, find_email_parts ps = inr nested
                                /\ body1 = fill_from body nested
    | None => body1 = body
    end
    /\ _decode_base64url d = inr decoded
    /\ visit_part body (Part (Some "message/rfc822") (Some d) sub)
       = inr result
    /\ result = (if truthy (plain body1) then body1
                 else set_plain body1 decoded)
    /\ html result = html body1
    /\ (truthy (plain body) = true -> plain result = plain body).
Proof.
  intros Hd.
  destruct (decode_returns d) as (decoded & Ed).
  assert (H1 : exists body1,
             match sub with
             | Some ps => exists nested, find_email_parts ps = inr nested
                                         /\ body1 = fill_from body nested
             | None => body1 = body
             end).
  { destruct sub as [ps|]; [|exists body; reflexivity].
    destruct (find_email_parts_returns ps) as (n & En).
    exists (fill_from body n), n. split; [exact En | reflexivity]. }
  destruct H1 as (body1 & H1).
  exists body1, decoded,
    (if truthy (plain body1) then body1 else set_plain body1 decoded).
  split; [exact H1|]. split; [exact Ed|].
  assert (E : visit_part body (Part (Some "message/rfc822") (Some d) sub)
              = inr (if truthy (plain body1) then body1
                     else set_plain body1 decoded)).
  { rewrite visit_part_eq.
    assert (E1 : match sub with
                 | Some ps => nested <- find_email_parts ps ;;
                              ret (fill_from body nested)
                 | None => ret body
                 end = inr body1).
    { destruct sub as [ps|].
      - destruct H1 as (n & En & ->). rewrite En. reflexivity.
      - subst body1. reflexivity. }
    rewrite E1. py_simpl. rewrite own_content_rfc822.
    unfold embedded_message. cbn [mime_is].
    replace (String.eqb "message/rfc822" "message/rfc822") with true
      by reflexivity.
    rewrite Hd, Ed. py_simpl.
    destruct (truthy (plain body1)); reflexivity. }
  split; [exact E|]. split; [reflexivity|]. split.
  - destruct (truthy (plain body1)); reflexivity.
  - intros Hb.
    destruct (visit_part_well (Part (Some "message/rfc822") (Some d) sub) body)
      as (b' & E' & K').
    rewrite E in E'. injection E' as <-.
    apply K'. exact Hb.
Qed.

(* ------------------------------------------------------------------ *)
(** ** The latest reply *)

Lemma payload_bodies_returns payload :
  exists bp, payload_bodies payload = inr bp.
Proof.
  destruct payload as [mt d sub]. unfold payload_bodies.
  destruct sub as [ps|]; [apply find_email_parts_returns|].
  destruct d as [x|]; [|eexists; reflexivity].
  destruct (decode_returns x) as (v & Ev). rewrite Ev. py_simpl.
  eexists; reflexivity.
Qed.

Lemma str_or_placeholder s : str_or s placeholder <> "".
Proof. unfold str_or. destruct s; simpl; discriminate. Qed.

(** C8, as amended.  The extraction returns for every payload, and the
    clean reply is never empty: it is the text left after the quoted
    history is removed when that is not empty; else the plain content
    with the whitespace at its ends removed when that is not empty; else
    the placeholder. *)
Theorem clean_reply_fallback (payload : part) :
  exists bp original clean_reply,
    payload_bodies payload = inr bp
    /\ extract_latest_reply payload = inr (original, clean_reply)
    /\ clean_reply <> ""
    /\ original = str_or (html bp) (plain bp)
    /\ clean_reply =
         (if truthy (strip_quoted bp) then strip_quoted bp
          else if truthy (strip (plain bp)) then strip (plain bp)
               else placeholder).
Proof.
  destruct (payload_bodies_returns payload) as (bp & E).
  unfold extract_latest_reply. rewrite E. py_simpl.
  eexists bp, _, _. split; [reflexivity|]. split; [reflexivity|].
  split; [apply str_or_placeholder|]. split; [reflexivity|].
  unfold str_or.
  destruct (truthy (strip_quoted bp)) eqn:Tq; cbn [negb andb].
  - rewrite Tq. reflexivity.
  - destruct (truthy (plain bp)) eqn:Tp.
    + reflexivity.
    + rewrite Tq. apply truthy_false in Tp. rewrite Tp. reflexivity.
Qed.
End Walk.

(* ================================================================== *)
(** * Further properties of the two modules *)

Import Notify Store Provenance StampOrder MoreSamples.

(* ------------------------------------------------------------------ *)
(** ** More about the classifier's helpers *)

Lemma lower_char_idem c : lower_char (lower_char c) = lower_char c.
Proof. destruct c as [[] [] [] [] [] [] [] []]; reflexivity. Qed.

Lemma lower_idem s : lower (lower s) = lower s.
Proof.
  induction s as [|c tl IH]; [reflexivity|]. simpl.
  now rewrite lower_char_idem, IH.
Qed.

Lemma mem_In x l : mem x l = true <-> In x l.
Proof.
  unfold mem. rewrite existsb_exists. split.
  - intros (y & Hy & E). apply String.eqb_eq in E. now subst.
  - intros H. exists x. split; [exact H | apply String.eqb_refl].
Qed.

Lemma dedupe_acc_spec xs :
  forall seen,
    NoDup (dedupe_acc seen xs)
    /\ forall x, In x (dedupe_acc seen xs) <-> In x xs /\ ~ In x seen.
Proof.
  induction xs as [|y tl IH]; intros seen; simpl.
  - split; [constructor|]. intros x. tauto.
  - destruct (mem y seen) eqn:E.
    + apply mem_In in E. destruct (IH seen) as [Hn Hi]. split; [exact Hn|].
      intros x. rewrite Hi. split; [tauto|].
      intros [[->|H] Hs]; [contradiction | tauto].
    + assert (Hy : ~ In y seen).
      { intros H. apply mem_In in H. congruence. }
      destruct (IH (y :: seen)) as [Hn Hi]. split.
      * constructor; [|exact Hn]. rewrite Hi. simpl. tauto.
      * intros x. simpl. rewrite Hi. simpl. split.
        -- intros [->|[H Hs]]; [tauto|]. split; [tauto|]. tauto.
        -- intros [[->|H] Hs]; [tauto|].
           destruct (string_dec y x) as [->|Hne]; [tauto|]. right. tauto.
Qed.

(** X1.  The URLs come out trimmed of trailing punctuation and without
    repetition, and they are exactly the trimmed finds of the two
    patterns. *)
Theorem find_urls_trimmed_distinct (text : string) :
  NoDup (find_urls text)
  /\ Forall (fun u => rstrip_chars ".,);]" u = u) (find_urls text)
  /\ (forall u,
        In u (find_urls text) <->
        exists raw,
          (In raw (findall1 flag_i href_re text)
           \/ In raw (findall1 flag_i url_re text))
          /\ u = rstrip_chars ".,);]" raw).
Proof.
  unfold find_urls, dedupe.
  set (raws := (findall1 flag_i href_re text
                ++ findall1 flag_i url_re text)%list).
  destruct (dedupe_acc_spec (map (rstrip_chars ".,);]") raws) []) as [Hn Hi].
  assert (Hin : forall u,
             In u (dedupe_acc [] (map (rstrip_chars ".,);]") raws)) <->
             exists raw, In raw raws /\ u = rstrip_chars ".,);]" raw).
  { intros u. rewrite Hi, in_map_iff. split.
    - intros [(raw & E & H) _]. exists raw. split; [exact H | now symmetry].
    - intros (raw & H & ->). split; [|intros []]. exists raw. tauto. }
  split; [exact Hn|]. split.
  - apply Forall_forall. intros u Hu. apply Hin in Hu.
    destruct Hu as (raw & _ & ->). unfold rstrip_chars. apply rstrip_idem.
  - intros u. rewrite Hin. unfold raws. split.
    + intros (raw & H & E). exists raw. rewrite in_app_iff in H. tauto.
    + intros (raw & H & E). exists raw. rewrite in_app_iff. tauto.
Qed.

Lemma lower_truthy s : truthy (lower s) = truthy s.
Proof. destruct s; reflexivity. Qed.

Section Hosts.
Context {L : PyLib}.

(** X2.  Every host kept is a hostname the library gave for one of the
    URLs, not empty and in lower case; a URL without a hostname is
    skipped. *)
Theorem hosts_lowercase_nonempty (urls : list string) :
  Forall (fun h => h <> "" /\ lower h = h
                   /\ exists u raw, In u urls /\ url_hostname u = Some raw
                                    /\ h = lower raw)
         (hosts urls)
  /\ length (hosts urls) <= length urls
  /\ (forall u, url_hostname u = None \/ url_hostname u = Some "" ->
                hosts urls = hosts (filter (fun v => negb (String.eqb v u)) urls)).
Proof.
  split; [|split].
  - induction urls as [|u tl IH]; simpl; [constructor|].
    assert (IH' : Forall (fun h => h <> "" /\ lower h = h
                   /\ exists u0 raw, In u0 (u :: tl) /\ url_hostname u0 = Some raw
                                    /\ h = lower raw) (hosts tl)).
    { eapply Forall_impl; [|exact IH]. intros h (H1 & H2 & v & raw & Hv & E & Eh).
      split; [exact H1|]. split; [exact H2|]. exists v, raw. simpl. tauto. }
    destruct (url_hostname u) as [h|] eqn:E; [|exact IH'].
    destruct (truthy h) eqn:T; [|exact IH'].
    constructor; [|exact IH'].
    split; [|split].
    + destruct h; [discriminate | simpl; discriminate].
    + apply lower_idem.
    + exists u, h. simpl. tauto.
  - induction urls as [|u tl IH]; simpl; [lia|].
    destruct (url_hostname u) as [h|]; [destruct (truthy h)|]; simpl; lia.
  - intros u Hu. induction urls as [|v tl IH]; [reflexivity|]. simpl.
    destruct (String.eqb_spec v u) as [->|Hne]; simpl.
    + destruct Hu as [->| ->]; simpl; exact IH.
    + rewrite IH. reflexivity.
Qed.
End Hosts.

Lemma tidy_no_double_space b s :
  tidy b s = true -> contains "  " s = false.
Proof.
  revert b. induction s as [|c tl IH]; intros b H; [reflexivity|].
  cbn [contains]. rewrite (IH (is_space c)).
  - rewrite orb_false_r. cbn [startswith].
    destruct (Ascii.eqb " " c) eqn:Ec; [|reflexivity].
    apply Ascii.eqb_eq in Ec. subst c. simpl in H.
    apply andb_prop in H. destruct H as [_ H].
    destruct tl as [|d tl']; [reflexivity|]. cbn [startswith].
    destruct (Ascii.eqb " " d) eqn:Ed; [|reflexivity].
    apply Ascii.eqb_eq in Ed. subst d. simpl in H. discriminate.
  - simpl in H. destruct (is_space c); [|exact H].
    apply andb_prop in H. tauto.
Qed.

Lemma tidy_only_spaces b s :
  tidy b s = true ->
  forall c, has_char c s = true -> is_space c = true -> c = " "%char.
Proof.
  revert b. induction s as [|d tl IH]; intros b H c Hc Hs; [discriminate|].
  simpl in H, Hc. destruct (Ascii.eqb_spec d c) as [->|Hne].
  - rewrite Hs in H. apply andb_prop in H. destruct H as [H _].
    apply andb_prop in H. destruct H as [H _]. now apply Ascii.eqb_eq in H.
  - simpl in Hc. destruct (is_space d).
    + apply andb_prop in H. destruct H as [_ H]. eapply IH; eassumption.
    + eapply IH; eassumption.
Qed.

Section Shape.
Context {L : PyLib}.

(** X3.  The normalized text has no whitespace but single spaces between
    other characters: no tab, newline or other whitespace character, no
    two spaces in a row, none at either end. *)
Theorem strip_html_whitespace_shape (text : string) :
  let t := strip_html text in
  (forall c, has_char c t = true -> is_space c = true -> c = " "%char)
  /\ contains "  " t = false
  /\ lstrip_by is_space t = t
  /\ rstrip_by is_space t = t.
Proof.
  intros t.
  assert (Ht : tidy false t = true).
  { unfold t, strip_html. rewrite sub_spaces.
    eapply tidy_strip. apply tidy_squeeze. }
  split; [exact (tidy_only_spaces _ _ Ht)|].
  split; [exact (tidy_no_double_space _ _ Ht)|].
  unfold t, strip_html, strip. split.
  - apply lstrip_fixed. apply rstrip_clean_head, lstrip_clean_head.
  - apply rstrip_idem.
Qed.

(** X4.  On a text without [<] and without [&] the normalizer only squeezes
    and trims the whitespace. *)
Theorem strip_html_plain_text (text : string) :
  contains "<" text = false -> contains "&" text = false ->
  strip_html text = strip (squeeze false text).
Proof.
  intros Hlt Hamp. unfold strip_html. rewrite contains_char in Hlt.
  rewrite (sub_no_lt _ _ _ _ script_re_lt Hlt).
  rewrite (sub_no_lt _ _ _ _ tag_re_lt Hlt).
  unfold unescape. rewrite Hamp. cbn [negb]. now rewrite sub_spaces.
Qed.
End Shape.

(* subject classifier *)

Lemma loop_result pats s :
  let r := subject_category_loop pats s in
  r <> "ID_PATTERN" /\ (r = "OTHER" \/ In r (map fst pats)).
Proof.
  induction pats as [|[key pat] rest IH]; simpl.
  - split; [discriminate | now left].
  - destruct (String.eqb_spec key "ID_PATTERN") as [E|Hne].
    + destruct IH as [H1 H2]. split; [exact H1|]. tauto.
    + destruct (search no_flags pat s).
      * split; [exact Hne|]. right. now left.
      * destruct IH as [H1 H2]. split; [exact H1|]. tauto.
Qed.

(** X5.  The category does not depend on the letter case of the subject; it
    is never the identifier pattern's key, and it is [OTHER] or one of
    the configured keys. *)
Theorem subject_category_ignores_case (cfg : rules) (subject : string) :
  subject_category cfg (Some (lower subject))
  = subject_category cfg (Some subject)
  /\ subject_category cfg (Some subject) <> "ID_PATTERN"
  /\ (subject_category cfg (Some subject) = "OTHER"
      \/ In (subject_category cfg (Some subject))
            (map fst (subject_patterns cfg))).
Proof.
  unfold subject_category. cbn [or_empty]. rewrite lower_idem.
  split; [reflexivity|]. apply loop_result.
Qed.

(* missing identifier pattern *)


Section MissingKey.
Context {L : PyLib}.

End MissingKey.

Section Bounds.
Context {L : PyLib}.

Lemma jbhunt_score_channels (cfg : rules) (e : email) :
  jbhunt_score cfg e =
    (contribution (domain_hits cfg e) (w_from_domain (rule_weights cfg))
     + contribution (name_hits cfg e) (w_sender_name (rule_weights cfg))
     + contribution (host_hits cfg e) (w_host (rule_weights cfg))
     + contribution (phrase_hits cfg e) (w_phrase (rule_weights cfg)))%Z.
Proof.
  unfold jbhunt_score, domain_hits, sender_domain, name_hits, host_hits,
    phrase_hits.
  rewrite existsb_flat, !existsb_filter.
  destruct (search no_flags from_re (or_empty (e_from e))) as [h|].
  - destruct (truthy (lower (group 2 (h_caps h)))); cbn [andb];
      [rewrite existsb_filter|]; split_hits.
  - split_hits.
Qed.

Lemma contribution_bounds {A : Type} (hits : list A) w :
  (0 <= w)%Z -> (0 <= contribution hits w <= w)%Z.
Proof. destruct hits; simpl; lia. Qed.

(** X7.  With weights that are not negative, the score lies between zero and
    the sum of the four weights; so a threshold above that sum is never
    reached, and a threshold of zero or less always is. *)
Theorem score_bounds (cfg : rules) (e : email) :
  let w := rule_weights cfg in
  let total := (w_from_domain w + w_sender_name w + w_host w + w_phrase w)%Z in
  (0 <= w_from_domain w)%Z -> (0 <= w_sender_name w)%Z ->
  (0 <= w_host w)%Z -> (0 <= w_phrase w)%Z ->
  (0 <= jbhunt_score cfg e <= total)%Z
  /\ ((total < threshold cfg)%Z -> score_jbhunt cfg e = false)
  /\ ((threshold cfg <= 0)%Z -> score_jbhunt cfg e = true).
Proof.
  intros w total H1 H2 H3 H4.
  assert (B : (0 <= jbhunt_score cfg e <= total)%Z).
  { rewrite jbhunt_score_channels. fold w. unfold total.
    pose proof (contribution_bounds (domain_hits cfg e) _ H1).
    pose proof (contribution_bounds (name_hits cfg e) _ H2).
    pose proof (contribution_bounds (host_hits cfg e) _ H3).
    pose proof (contribution_bounds (phrase_hits cfg e) _ H4).
    lia. }
  split; [exact B|]. unfold score_jbhunt. split; intros H.
  - apply Z.leb_gt. lia.
  - apply Z.leb_le. lia.
Qed.
End Bounds.

(* stamp locator *)

Lemma stamp_position_by_indicators cfg cfg' text_body :
  map lower (footer_indicators cfg') = map lower (footer_indicators cfg) ->
  stamp_position cfg' text_body = stamp_position cfg text_body.
Proof.
  intros E. unfold stamp_position.
  set (t := lower (or_empty text_body)).
  assert (H : forall inds,
             map (fun ind => rfind t (lower ind))
                 (filter (fun ind => contains (lower ind) t) inds)
             = map (rfind t) (filter (fun l => contains l t) (map lower inds))).
  { induction inds as [|i tl IH]; [reflexivity|]. simpl.
    destruct (contains (lower i) t); simpl; now rewrite IH. }
  rewrite (H (footer_indicators cfg')), (H (footer_indicators cfg)), E.
  reflexivity.
Qed.

(** X11.  The stamp position does not depend on the letter case of the text,
    nor on that of the indicators. *)
Theorem stamp_position_ignores_case (cfg cfg' : rules) (text : string) :
  footer_indicators cfg' = map lower (footer_indicators cfg) ->
  stamp_position cfg (Some (lower text)) = stamp_position cfg (Some text)
  /\ stamp_position cfg' (Some text) = stamp_position cfg (Some text).
Proof.
  intros E. split.
  - unfold stamp_position. cbn [or_empty]. now rewrite lower_idem.
  - apply stamp_position_by_indicators. rewrite E, map_map.
    apply map_ext. intros a. apply lower_idem.
Qed.

Lemma contains_in_empty n : contains n "" = is_empty n.
Proof. destruct n; reflexivity. Qed.

Lemma lower_is_empty s : is_empty (lower s) = is_empty s.
Proof. destruct s; reflexivity. Qed.

Lemma max_of_zeros l : Forall (fun z => z = 0%Z) l -> max_of 0%Z l = 0%Z.
Proof.
  unfold max_of. induction 1 as [|x l -> _ IH]; [reflexivity|]. exact IH.
Qed.

(** X12.  On an absent or empty text the stamp is not found, unless an empty
    indicator is configured: that one occurs in every text, and in an
    empty one it gives header. *)
Theorem stamp_position_empty_text (cfg : rules) :
  let any_empty := existsb is_empty (footer_indicators cfg) in
  stamp_position cfg None = (if any_empty then Some "header" else None)
  /\ stamp_position cfg (Some "")
     = (if any_empty then Some "header" else None).
Proof.
  intros any_empty.
  assert (H : stamp_position cfg None
              = if any_empty then Some "header" else None).
  { unfold stamp_position, any_empty. cbn [or_empty lower].
    set (inds := footer_indicators cfg).
    assert (Hf : filter (fun ind => contains (lower ind) "") inds
                 = filter is_empty inds).
    { apply filter_ext. intros a. now rewrite contains_in_empty, lower_is_empty. }
    rewrite Hf, existsb_filter.
    assert (Hz : Forall (fun z => z = 0%Z)
                        (map (fun ind => rfind "" (lower ind))
                             (filter is_empty inds))).
    { apply Forall_forall. intros z Hz. apply in_map_iff in Hz.
      destruct Hz as (i & <- & Hi). apply filter_In in Hi.
      destruct Hi as [_ Hi]. destruct i; [reflexivity | discriminate]. }
    destruct (filter is_empty inds) as [|i tl]; [reflexivity|].
    cbn [map] in *. inversion Hz as [|? ? H0 Htl]; subst.
    rewrite H0, (max_of_zeros _ Htl). reflexivity. }
  split; exact H.
Qed.

(* ------------------------------------------------------------------ *)
(** ** More about the walk over the parts *)

Section WalkMore.
Context {L : PyLib}.

Lemma walk_parts_app l1 l2 b :
  walk_parts b (l1 ++ l2) = (b1 <- walk_parts b l1 ;; walk_parts b1 l2).
Proof.
  revert b. induction l1 as [|p tl IH]; intros b; simpl; [reflexivity|].
  destruct (visit_part b p) as [x|b1]; py_simpl; [reflexivity | apply IH].
Qed.

(** X14.  Parts that come later never replace what the parts before them
    gave: the walk over a list continues the walk over its first parts,
    and every field those filled is in the result unchanged. *)
Theorem find_email_parts_earlier_parts_win (l1 l2 : list part) :
  exists b1 b,
    find_email_parts l1 = inr b1
    /\ find_email_parts (l1 ++ l2) = inr b
    /\ walk_parts b1 l2 = inr b
    /\ (plain b1 <> "" -> plain b = plain b1)
    /\ (html b1 <> "" -> html b = html b1).
Proof.
  destruct (find_email_parts_returns l1) as (b1 & E1).
  assert (W : forall l, Forall visits_well l)
    by (intros l; apply Forall_forall; intros p _; apply visit_part_well).
  destruct (walk_parts_well l2 (W l2) b1) as (b & E2 & [Kp Kh]).
  exists b1, b. split; [exact E1|].
  unfold find_email_parts in *. rewrite walk_parts_app, E1. py_simpl.
  split; [exact E2|]. split; [exact E2|]. split; intros H.
  - apply Kp. now destruct (plain b1).
  - apply Kh. now destruct (html b1).
Qed.

Lemma sourced_empty nodes : sourced nodes no_bodies.
Proof. split; now left. Qed.

Lemma fill_from_sourced nodes b n :
  sourced nodes b -> sourced nodes n -> sourced nodes (fill_from b n).
Proof.
  intros [Bp Bh] [Np Nh]. unfold fill_from.
  destruct (truthy (plain n) && negb (truthy (plain b)));
    destruct (truthy (html n) && negb (truthy (html _)));
    split; simpl; assumption.
Qed.

Lemma own_content_sourced nodes mt d sub b b' :
  nodes (Part mt d sub) -> sourced nodes b ->
  own_content mt d b = inr b' -> sourced nodes b'.
Proof.
  intros Hn [Bp Bh]. unfold own_content.
  destruct (String.eqb (or_empty mt) "text/plain") eqn:Ep; cbn [andb].
  - destruct (negb (truthy (plain b))).
    + destruct d as [x|]; [|intros [= <-]; now split].
      destruct (truthy x) eqn:Tx; [|intros [= <-]; now split].
      destruct (_decode_base64url x) as [err|v] eqn:Ev; py_simpl;
        [discriminate|].
      intros [= <-]. split; simpl; [|exact Bh]. right.
      exists mt, x, sub. rewrite Ep. tauto.
    + destruct (String.eqb (or_empty mt) "text/html") eqn:Eh.
      * apply String.eqb_eq in Ep, Eh. congruence.
      * cbn [andb]. intros [= <-]. now split.
  - destruct (String.eqb (or_empty mt) "text/html") eqn:Eh; cbn [andb];
      [|intros [= <-]; now split].
    destruct (negb (truthy (html b))); [|intros [= <-]; now split].
    destruct d as [x|]; [|intros [= <-]; now split].
    destruct (truthy x) eqn:Tx; [|intros [= <-]; now split].
    destruct (_decode_base64url x) as [err|v] eqn:Ev; py_simpl;
      [discriminate|].
    intros [= <-]. split; simpl; [exact Bp|]. right.
    exists mt, x, sub. tauto.
Qed.

Lemma embedded_message_sourced nodes mt d sub b b' :
  nodes (Part mt d sub) -> sourced nodes b ->
  embedded_message mt d b = inr b' -> sourced nodes b'.
Proof.
  intros Hn [Bp Bh]. unfold embedded_message.
  destruct (mime_is mt "message/rfc822") eqn:Em;
    [|intros [= <-]; now split].
  destruct d as [x|]; [|intros [= <-]; now split].
  destruct (truthy x) eqn:Tx; [|intros [= <-]; now split].
  destruct (_decode_base64url x) as [err|v] eqn:Ev; py_simpl.
  - intros [= <-]. now split.
  - destruct (negb (truthy (plain b))); intros [= <-]; [|now split].
    split; simpl; [|exact Bh]. right. exists mt, x, sub. tauto.
Qed.

Lemma walk_parts_sourced l :
  Forall visit_sourced l ->
  forall (nodes : part -> Prop) b b',
    (forall p q, In p l -> in_tree q p -> nodes q) ->
    sourced nodes b -> walk_parts b l = inr b' -> sourced nodes b'.
Proof.
  induction 1 as [|p tl Hp _ IH]; intros nodes b b' Hn Hb; simpl.
  - intros [= <-]. exact Hb.
  - destruct (visit_part b p) as [err|b1] eqn:E1; py_simpl; [discriminate|].
    intros E2. eapply IH; [| |exact E2].
    + intros p' q Hin. apply Hn. now right.
    + eapply Hp; [|exact Hb|exact E1]. intros q. apply Hn. now left.
Qed.

Lemma visit_part_sourced p : visit_sourced p.
Proof.
  induction p as [mt d sub IH] using part_nested_ind.
  intros nodes b b' Hn Hb. rewrite visit_part_eq.
  assert (Hself : nodes (Part mt d sub)) by (apply Hn; constructor).
  destruct (match sub with
            | Some ps => nested <- find_email_parts ps ;;
                         ret (fill_from b nested)
            | None => ret b
            end) as [err|b1] eqn:E1; py_simpl; [discriminate|].
  assert (H1 : sourced nodes b1).
  { destruct sub as [ps|]; [|injection E1 as <-; exact Hb].
    unfold find_email_parts in E1.
    destruct (walk_parts no_bodies ps) as [err|n] eqn:En; py_simpl;
      [discriminate|].
    injection E1 as <-. apply fill_from_sourced; [exact Hb|].
    eapply (walk_parts_sourced ps IH nodes); [|apply sourced_empty|exact En].
    intros p q Hin Hq. apply Hn. econstructor; eassumption. }
  destruct (own_content mt d b1) as [err|b2] eqn:E2; [discriminate|].
  intros E3.
  eapply embedded_message_sourced; [exact Hself| |exact E3].
  eapply own_content_sourced; [exact Hself|exact H1|exact E2].
Qed.

(** X15.  The walk invents nothing: each field of its result is empty or is
    the decoded data of a part of the tree, a [text/plain] or
    [message/rfc822] part for the plain field and a [text/html] part for
    the html field.  A tree whose parts carry no data gives two empty
    fields. *)
Theorem find_email_parts_sources (l : list part) :
  exists b,
    find_email_parts l = inr b
    /\ (plain b = "" \/ plain_source (in_forest l) (plain b))
    /\ (html b = "" \/ html_source (in_forest l) (html b))
    /\ ((forall mt d sub, in_forest l (Part mt (Some d) sub) -> d = "") ->
        b = no_bodies).
Proof.
  destruct (find_email_parts_returns l) as (b & E). exists b.
  assert (S : sourced (in_forest l) b).
  { eapply (walk_parts_sourced l); [| |apply sourced_empty|exact E].
    - apply Forall_forall. intros p _. apply visit_part_sourced.
    - intros p q Hin Hq. exists p. tauto. }
  split; [exact E|]. destruct S as [Sp Sh].
  split; [exact Sp|]. split; [exact Sh|].
  intros Hno. destruct b as [pb hb]. unfold no_bodies. simpl in *.
  assert (pb = "").
  { destruct Sp as [->|(mt & d & sub & Hin & Td & _)]; [reflexivity|].
    apply Hno in Hin. subst d. discriminate. }
  assert (hb = "").
  { destruct Sh as [->|(mt & d & sub & Hin & Td & _)]; [reflexivity|].
    apply Hno in Hin. subst d. discriminate. }
  now subst.
Qed.
End WalkMore.

(* ------------------------------------------------------------------ *)
(** ** More about the latest reply *)

Lemma quote_needs_newline adv s :
  match s with
  | String c _ => Ascii.eqb nl c = false
  | EmptyString => True
  end ->
  match_at no_flags quote_re adv s = None.
Proof.
  unfold match_at, quote_re, Cat. cbn [fold_right go].
  destruct s as [|c tl]; [reflexivity|].
  unfold chr_eq. cbn [ignorecase no_flags]. now intros ->.
Qed.

Lemma search_quote_none adv s :
  has_char nl s = false -> search_from no_flags quote_re adv s = None.
Proof.
  revert adv. induction s as [|c tl IH]; intros adv H; cbn [search_from].
  - now rewrite quote_needs_newline.
  - cbn [has_char] in H. apply orb_false_iff in H. destruct H as [Hc Ht].
    rewrite quote_needs_newline by (now rewrite Ascii.eqb_sym).
    now rewrite IH.
Qed.

Lemma search_quote_skip reply X s' cs :
  has_char nl reply = false ->
  match_at no_flags quote_re false X = Some (s', cs) ->
  search_from no_flags quote_re false (reply ++ X)
  = Some {| h_pre := reply; h_text := consumed X s';
            h_rest := s'; h_caps := cs |}.
Proof.
  intros Hr HX. induction reply as [|c tl IH].
  - cbn [append]. destruct X; cbn [search_from]; now rewrite HX.
  - cbn [has_char] in Hr. apply orb_false_iff in Hr. destruct Hr as [Hc Ht].
    cbn [append search_from].
    rewrite quote_needs_newline by (now rewrite Ascii.eqb_sym).
    now rewrite (IH Ht).
Qed.

Lemma star_underscores (A : Type) (k : cont A) res cs rest n :
  forall fuel,
    n <= fuel ->
    k (String nl rest) cs = Some res ->
    star_loop A (go no_flags A (Chr "_")) true k fuel
              (replicate n "_" ++ String nl rest) cs
    = Some res.
Proof.
  induction n as [|n IH]; intros fuel Hf Hk.
  - cbn [replicate append]. destruct fuel; cbn [star_loop go]; [exact Hk|].
    replace (chr_eq no_flags "_" nl) with false by reflexivity.
    simpl. exact Hk.
  - destruct fuel as [|fuel]; [lia|]. cbn [replicate append star_loop go].
    replace (chr_eq no_flags "_" "_") with true by reflexivity.
    replace (String.length (replicate n "_" ++ String nl rest)
             <? String.length (String "_" (replicate n "_" ++ String nl rest)))
      with true by (symmetry; apply Nat.ltb_lt; simpl; lia).
    rewrite IH; [reflexivity | lia | exact Hk].
Qed.

Lemma match_underscore_line n rest :
  match_at no_flags quote_re false
           (String nl (replicate (S n) "_" ++ String nl rest))
  = Some (rest, []).
Proof.
  unfold match_at, quote_re, Cat, Plus. cbn [fold_right go replicate append].
  replace (chr_eq no_flags nl nl) with true by reflexivity.
  replace (chr_eq no_flags "_" "_") with true by reflexivity.
  rewrite (star_underscores (string * caps) _ (rest, []) [] rest n).
  - reflexivity.
  - rewrite length_append, length_replicate. lia.
  - cbn [go]. replace (chr_eq no_flags nl nl) with true by reflexivity.
    reflexivity.
Qed.

Lemma split_at_underscore_line reply n rest :
  has_char nl reply = false ->
  split1_head no_flags quote_re
              (reply ++ String nl (replicate (S n) "_" ++ String nl rest))
  = reply.
Proof.
  intros H. unfold split1_head, search.
  now rewrite (search_quote_skip _ _ _ _ H (match_underscore_line n rest)).
Qed.

Section ReplyMore.
Context {L : PyLib}.

(** X16.  A plain text of one line, with no html beside it, is its own
    latest reply: the extraction returns it as the original body and,
    with the whitespace at its ends removed, as the clean reply; the
    placeholder when nothing but whitespace is there. *)
Theorem one_line_reply_is_kept (payload : part) (bp : bodies) :
  payload_bodies payload = inr bp ->
  html bp = "" ->
  has_char nl (plain bp) = false ->
  extract_latest_reply payload
  = inr (plain bp, str_or (strip (plain bp)) placeholder).
Proof.
  intros E Hh Hn. unfold extract_latest_reply. rewrite E. py_simpl.
  unfold strip_quoted, split1_head, search.
  rewrite Hh, (search_quote_none _ _ Hn). cbn [truthy str_or].
  destruct (truthy (plain bp)) eqn:Tp.
  - rewrite andb_true_r.
    destruct (truthy (strip (plain bp))) eqn:Ts; cbn [negb];
      unfold str_or; rewrite Ts; reflexivity.
  - apply truthy_false in Tp. rewrite Tp. reflexivity.
Qed.

(** X17.  A plain reply above a line of underscores: the text from that line
    on is dropped, and the clean reply is the line above it, trimmed. *)
Theorem reply_above_underscores (payload : part) (bp : bodies)
        (reply rest : string) (n : nat) :
  payload_bodies payload = inr bp ->
  html bp = "" ->
  plain bp = reply ++ String nl (replicate (S n) "_" ++ String nl rest) ->
  has_char nl reply = false ->
  strip reply <> "" ->
  extract_latest_reply payload = inr (plain bp, strip reply).
Proof.
  intros E Hh Hp Hn Hs. unfold extract_latest_reply. rewrite E. py_simpl.
  unfold strip_quoted. rewrite Hh. cbn [truthy str_or].
  assert (Tp : truthy (plain bp) = true).
  { rewrite Hp. destruct reply; reflexivity. }
  assert (Hq : split1_head no_flags quote_re (plain bp) = reply).
  { rewrite Hp. apply split_at_underscore_line. exact Hn. }
  assert (Ts : truthy (strip reply) = true).
  { destruct (strip reply); [contradiction | reflexivity]. }
  rewrite Tp, Hq, Ts. cbn [negb andb]. unfold str_or. now rewrite Ts.
Qed.
End ReplyMore.

(* ------------------------------------------------------------------ *)
(** ** What is sent to the chat *)

Lemma has_char_append c a b :
  has_char c (a ++ b) = has_char c a || has_char c b.
Proof.
  induction a as [|d a IH]; simpl; [reflexivity|].
  now rewrite IH, orb_assoc.
Qed.

Lemma replace_char_removes old new s :
  has_char old new = false -> has_char old (replace_char old new s) = false.
Proof.
  intros Hn. induction s as [|c tl IH]; simpl; [reflexivity|].
  destruct (Ascii.eqb c old) eqn:E.
  - now rewrite has_char_append, Hn, IH.
  - simpl. now rewrite E, IH.
Qed.

Lemma replace_char_absent c old new s :
  has_char c new = false -> has_char c s = false ->
  has_char c (replace_char old new s) = false.
Proof.
  intros Hn. induction s as [|d tl IH]; simpl; [reflexivity|].
  intros H. apply orb_false_iff in H. destruct H as [Hd Ht].
  destruct (Ascii.eqb d old).
  - now rewrite has_char_append, Hn, IH.
  - simpl. now rewrite Hd, IH.
Qed.

Lemma html_escape_no_markup s :
  has_char "<" (html_escape s) = false
  /\ has_char ">" (html_escape s) = false
  /\ has_char dquote (html_escape s) = false
  /\ has_char squote (html_escape s) = false.
Proof.
  unfold html_escape. repeat split.
  - do 3 (apply replace_char_absent; [reflexivity|]).
    now apply replace_char_removes.
  - do 2 (apply replace_char_absent; [reflexivity|]).
    now apply replace_char_removes.
  - apply replace_char_absent; [reflexivity|].
    now apply replace_char_removes.
  - now apply replace_char_removes.
Qed.

Lemma match_group1 f r adv s s' cs :
  match_at f (Group 1 r) adv s = Some (s', cs) ->
  group 1 cs = consumed s s'.
Proof.
  unfold match_at. cbn [go]. intros H. apply go_suffix in H.
  destruct H as (s1 & cs1 & _ & H). unfold accept in H.
  destruct (adv && (String.length s1 =? String.length s)); [discriminate|].
  injection H as <- <-. reflexivity.
Qed.

Lemma chain_group1 f r adv s hs tl :
  chain f (Group 1 r) adv s hs tl ->
  Forall (fun h => group 1 (h_caps h) = h_text h) hs.
Proof.
  induction 1 as [adv s _|adv s h hs tl E _ IH]; constructor; [|exact IH].
  destruct (search_from_spec _ _ _ _ _ E) as (_ & Hm & _).
  apply match_group1 in Hm. now rewrite consumed_append in Hm.
Qed.

Lemma map_ext_Forall {A B : Type} (f g : A -> B) l :
  Forall (fun x => f x = g x) l -> map f l = map g l.
Proof. induction 1 as [|x l E _ IH]; simpl; [reflexivity | now rewrite E, IH]. Qed.

(** X19.  The formatted body is the escaped body with an anchor around each
    URL: the escaped text is cut into the successive matches of the URL
    pattern and the text between them, the formatted text has the same
    pieces with each URL inside an anchor, and the escaped text holds no
    [<], no [>] and no quote, so the anchors are the only markup of the
    result. *)
Theorem format_body_wraps_urls (body : string) :
  exists hs tail,
    chain no_flags link_re false (html_escape body) hs tail
    /\ String.concat "" (map (fun h => h_pre h ++ h_text h) hs) ++ tail
       = html_escape body
    /\ format_body_for_telegram body
       = String.concat "" (map (fun h => h_pre h ++ anchor (h_text h)) hs)
         ++ tail
    /\ has_char "<" (html_escape body) = false
    /\ has_char ">" (html_escape body) = false
    /\ has_char dquote (html_escape body) = false
    /\ has_char squote (html_escape body) = false.
Proof.
  pose proof (finditer_chain no_flags link_re (html_escape body)) as Hc.
  exists (fst (finditer no_flags link_re (html_escape body))),
         (snd (finditer no_flags link_re (html_escape body))).
  split; [exact Hc|].
  split; [eapply chain_tiles; exact Hc|].
  split; [|apply html_escape_no_markup].
  unfold format_body_for_telegram, sub_with.
  destruct (finditer no_flags link_re (html_escape body)) as [hs tl].
  cbn [fst snd] in *. f_equal. f_equal.
  apply map_ext_Forall. apply chain_group1 in Hc.
  eapply Forall_impl; [|exact Hc]. intros h E. cbv beta. now rewrite E.
Qed.

Lemma length_substring_prefix n s :
  String.length (substring 0 n s) = Nat.min n (String.length s).
Proof.
  revert s. induction n as [|n IH]; intros s.
  - destruct s; reflexivity.
  - destruct s as [|c tl]; [reflexivity|]. simpl. now rewrite IH.
Qed.

(** X20.  The body of a message is the formatted text when that has at most
    3800 characters, and otherwise its first 3800 characters and the
    truncation mark: 3828 characters, never more. *)
Theorem message_body_bounded (cleaned : string) :
  String.length (message_body cleaned) <= 3828
  /\ (String.length (format_body_for_telegram cleaned) <= 3800 ->
      message_body cleaned = format_body_for_telegram cleaned)
  /\ (3800 < String.length (format_body_for_telegram cleaned) ->
      String.length (message_body cleaned) = 3828
      /\ message_body cleaned
         = substring 0 3800 (format_body_for_telegram cleaned)
           ++ truncated_mark).
Proof.
  unfold message_body.
  set (p := format_body_for_telegram cleaned).
  assert (Hm : String.length truncated_mark = 28) by reflexivity.
  destruct (3800 <? String.length p) eqn:E.
  - apply Nat.ltb_lt in E.
    assert (Hl : String.length (substring 0 3800 p ++ truncated_mark) = 3828).
    { rewrite length_append, length_substring_prefix, Hm. lia. }
    split; [lia|]. split; [lia|]. intros _. split; [exact Hl | reflexivity].
  - apply Nat.ltb_ge in E. split; [lia|]. split; [reflexivity | lia].
Qed.

(* subject *)

Lemma go_Lit (A : Type) w s cs (k : cont A) :
  go no_flags A (Lit w) s cs k =
  match eat no_flags w s with
  | Some s' => k s' cs
  | None => None
  end.
Proof.
  revert s. induction w as [|a w IH]; intros s; cbn [Lit go eat];
    [reflexivity|].
  destruct s as [|b tl]; [reflexivity|].
  destruct (chr_eq no_flags a b); [apply IH | reflexivity].
Qed.

Lemma drop_cons n c s : drop (S n) (String c s) = drop n s.
Proof. reflexivity. Qed.

Lemma drop_zero s : drop 0 s = s.
Proof.
  unfold drop. rewrite Nat.sub_0_r.
  rewrite <- (append_nil_r s) at 2. apply substring_prefix.
Qed.

Lemma eat_startswith w s :
  eat no_flags w s =
  if startswith s w then Some (drop (String.length w) s) else None.
Proof.
  revert s. induction w as [|a w IH]; intros s.
  - cbn [eat String.length]. rewrite startswith_nil, drop_zero. reflexivity.
  - destruct s as [|b tl]; [reflexivity|].
    cbn [eat startswith String.length]. unfold chr_eq.
    cbn [ignorecase no_flags]. rewrite drop_cons.
    destruct (Ascii.eqb a b); [apply IH | reflexivity].
Qed.

Lemma star_spaces_accept s s1 cs :
  star_loop (string * caps) (go no_flags (string * caps) (Cls false is_space))
            true (accept false s) (String.length s1) s1 cs
  = Some (lstrip_by is_space s1, cs).
Proof. apply star_spaces; [lia | reflexivity]. Qed.

(** X21.  The subject loses one reply prefix, [re:], [Re:] or [RE:] exactly,
    with the whitespace after it; a subject without such a prefix is
    kept as it is.  What is kept is the end of the subject. *)
Theorem clean_subject_strips_one_prefix (subject : string) :
  clean_subject subject =
    (if startswith subject "re:" || startswith subject "Re:"
        || startswith subject "RE:"
     then lstrip_by is_space (drop 3 subject)
     else subject)
  /\ suffix_of (clean_subject subject) subject.
Proof.
  assert (E : clean_subject subject =
    (if startswith subject "re:" || startswith subject "Re:"
        || startswith subject "RE:"
     then lstrip_by is_space (drop 3 subject)
     else subject)).
  { unfold clean_subject, sub_at_start, match_at, reply_prefix_re.
    cbn [go]. rewrite !go_Lit, !eat_startswith. cbn [String.length].
    destruct (startswith subject "re:"); cbn [orb orelse].
    - rewrite star_spaces_accept. reflexivity.
    - destruct (startswith subject "Re:"); cbn [orb orelse].
      + rewrite star_spaces_accept. reflexivity.
      + destruct (startswith subject "RE:"); cbn [orb orelse];
          [rewrite star_spaces_accept|]; reflexivity. }
  split; [exact E|].
  unfold clean_subject, sub_at_start.
  destruct (match_at no_flags reply_prefix_re false subject)
    as [[rest cs]|] eqn:M; [|apply suffix_refl].
  cbn [append]. apply match_at_spec in M. tauto.
Qed.

(* callback data *)

Lemma split_char_nonempty sep s : split_char sep s <> [].
Proof.
  induction s as [|c tl IH]; simpl; [discriminate|].
  destruct (Ascii.eqb c sep); [discriminate|].
  destruct (split_char sep tl); discriminate.
Qed.

Lemma split_char_field sep a b :
  has_char sep a = false ->
  split_char sep (a ++ String sep b) = a :: split_char sep b.
Proof.
  induction a as [|c a IH]; simpl.
  - intros _. now rewrite Ascii.eqb_refl.
  - intros H. apply orb_false_iff in H. destruct H as [Hc Ha].
    rewrite Hc, (IH Ha). reflexivity.
Qed.

Lemma split_char_whole sep a :
  has_char sep a = false -> split_char sep a = [a].
Proof.
  induction a as [|c a IH]; simpl; [reflexivity|].
  intros H. apply orb_false_iff in H. destruct H as [Hc Ha].
  now rewrite Hc, (IH Ha).
Qed.

Lemma split_char_length_append sep a b :
  length (split_char sep (a ++ b))
  = length (split_char sep a) + length (split_char sep b) - 1.
Proof.
  induction a as [|c a IH]; simpl.
  - pose proof (split_char_nonempty sep b).
    destruct (split_char sep b); [contradiction | simpl; lia].
  - pose proof (split_char_nonempty sep (a ++ b)) as Hab.
    pose proof (split_char_nonempty sep a) as Ha.
    pose proof (split_char_nonempty sep b) as Hb.
    destruct (Ascii.eqb c sep); simpl.
    + rewrite IH. destruct (split_char sep a); [contradiction|].
      simpl. lia.
    + destruct (split_char sep (a ++ b)); [contradiction|].
      destruct (split_char sep a); [contradiction|].
      simpl in *. lia.
Qed.

Lemma split_char_two sep s :
  has_char sep s = true -> 2 <= length (split_char sep s).
Proof.
  induction s as [|c tl IH]; simpl; [discriminate|].
  pose proof (split_char_nonempty sep tl) as Hn.
  destruct (Ascii.eqb c sep); simpl.
  - intros _. destruct (split_char sep tl); [contradiction | simpl; lia].
  - intros H. specialize (IH H).
    destruct (split_char sep tl); [contradiction | simpl in *; lia].
Qed.

(** X22.  The decision handler reads back what the button was given, the
    message id and the decision, exactly when the id holds no colon; an
    id with a colon makes the unpacking fail. *)
Theorem callback_round_trip (mid : string) (yes : bool) :
  callback_decision (callback_data mid yes)
  = if has_char ":" mid then None else Some (mid, yes).
Proof.
  unfold callback_decision, callback_data.
  destruct (has_char ":" mid) eqn:H.
  - assert (Hl : 4 <= length (split_char ":"
                    ("response:" ++ mid ++ ":" ++ (if yes then "yes" else "no")))).
    { change ("response:" ++ mid ++ ":" ++ (if yes then "yes" else "no"))
        with ("response" ++ String ":" (mid ++ ":" ++ (if yes then "yes" else "no"))).
      rewrite split_char_field by reflexivity. cbn [length].
      rewrite split_char_length_append.
      pose proof (split_char_two ":" mid H).
      assert (length (split_char ":" (":" ++ (if yes then "yes" else "no"))) = 2)
        by (destruct yes; reflexivity).
      lia. }
    destruct (split_char ":" _) as [|a [|b [|c [|d l]]]]; simpl in Hl;
      try lia; reflexivity.
  - change ("response:" ++ mid ++ ":" ++ (if yes then "yes" else "no"))
      with ("response" ++ String ":" (mid ++ String ":" (if yes then "yes" else "no"))).
    rewrite split_char_field by reflexivity.
    rewrite (split_char_field _ _ _ H), split_char_whole
      by (destruct yes; reflexivity).
    destruct yes; reflexivity.
Qed.

(* ------------------------------------------------------------------ *)
(** ** What is kept on disk *)

Lemma mark_first_ids i d data :
  map r_id (mark_first i d data) = map r_id data.
Proof.
  induction data as [|e tl IH]; simpl; [reflexivity|].
  destruct (id_is e i); simpl; [reflexivity | now rewrite IH].
Qed.

Lemma mark_first_hit i d before e after :
  forallb (fun x => negb (id_is x i)) before = true ->
  id_is e i = true ->
  mark_first i d (before ++ e :: after) = (before ++ set_needs e d :: after)%list.
Proof.
  intros Hb He. induction before as [|x tl IH]; simpl.
  - now rewrite He.
  - simpl in Hb. apply andb_prop in Hb. destruct Hb as [Hx Hb].
    destruct (id_is x i); [discriminate|]. now rewrite (IH Hb).
Qed.

Lemma mark_first_miss i d data :
  forallb (fun x => negb (id_is x i)) data = true ->
  mark_first i d data = data.
Proof.
  induction data as [|x tl IH]; simpl; [reflexivity|]. intros H.
  apply andb_prop in H. destruct H as [Hx H].
  destruct (id_is x i); [discriminate|]. now rewrite (IH H).
Qed.

Lemma mark_first_idem i d data :
  mark_first i d (mark_first i d data) = mark_first i d data.
Proof.
  induction data as [|x tl IH]; simpl; [reflexivity|].
  destruct (id_is x i) eqn:E; simpl.
  - unfold id_is in *. simpl. now rewrite E.
  - now rewrite E, IH.
Qed.

(** X23.  Recording a decision changes one record at most, the first one with
    the id: the records stay where they are with their ids, that record
    gets the decision, every other one is as it was, and nothing changes
    when no record has the id, when the file is missing or not parsable,
    or when it cannot be written.  Recording the same decision again
    changes nothing more. *)
Theorem update_marks_first_match (email_id : string) (decision : bool)
        (st : state) :
  let st' := update_email_record email_id decision st in
  processed_ids st' = processed_ids st
  /\ writable st' = writable st
  /\ update_email_record email_id decision st' = st'
  /\ match emails_file st with
     | Stored data =>
         if writable st
         then exists data',
             emails_file st' = Stored data'
             /\ map r_id data' = map r_id data
             /\ (forall before e after,
                    data = (before ++ e :: after)%list ->
                    forallb (fun x => negb (id_is x email_id)) before = true ->
                    id_is e email_id = true ->
                    data' = (before ++ set_needs e decision :: after)%list)
             /\ (forallb (fun x => negb (id_is x email_id)) data = true ->
                 data' = data)
         else st' = st
     | Missing | Corrupt => st' = st
     end.
Proof.
  intros st'. unfold st', update_email_record.
  destruct st as [f w ids]. cbn [emails_file writable processed_ids].
  destruct f as [| |data]; cbn [emails_file writable processed_ids];
    try (repeat split; reflexivity).
  destruct w; cbn [with_file emails_file writable processed_ids];
    [|repeat split; reflexivity].
  split; [reflexivity|]. split; [reflexivity|]. split.
  - now rewrite mark_first_idem.
  - exists (mark_first email_id decision data).
    split; [reflexivity|]. split; [apply mark_first_ids|]. split.
    + intros before e after -> Hb He. now apply mark_first_hit.
    + apply mark_first_miss.
Qed.

Lemma ids_of_app a b : ids_of (a ++ b) = (ids_of a ++ ids_of b)%list.
Proof.
  induction a as [|e tl IH]; simpl; [reflexivity|].
  destruct (r_id e); simpl; now rewrite IH.
Qed.

(** X24.  A saved record is found again: when the file can be written, the
    file then holds the records that could be read before, followed by
    the new one (so the content of an unparsable file is replaced), and
    the set of ids loaded afterwards holds the ids of those records and
    the new id, nothing else. *)
Theorem saved_record_is_loaded (rec : record) (st : state) (i : string) :
  writable st = true ->
  r_id rec = Some i ->
  let st' := load_processed_emails (save_email_record rec st) in
  emails_file st' = Stored (kept_records st ++ [rec])
  /\ (forall j, In j (processed_ids st')
                <-> In j (ids_of (kept_records st)) \/ j = i)
  /\ In i (processed_ids st').
Proof.
  intros Hw Hi st'. unfold st', save_email_record, load_processed_emails.
  rewrite Hw. cbn [with_file emails_file with_ids processed_ids].
  fold (kept_records st).
  assert (E : ids_of (kept_records st ++ [rec])
              = (ids_of (kept_records st) ++ [i])%list).
  { rewrite ids_of_app. simpl. now rewrite Hi. }
  split; [reflexivity|]. rewrite E. split.
  - intro j. rewrite in_app_iff. simpl. split.
    + intros [H | [H | []]]; [now left | now right].
    + intros [H | H]; [now left | right; now left].
  - apply in_or_app. right. now left.
Qed.

(** X25.  A decision recorded for a record just saved reaches that record
    when no older record has its id; when one has, the decision goes to
    the older record and the new one is stored without a decision of its
    own. *)
Theorem decision_after_save (rec : record) (st : state) (i : string)
        (decision : bool) :
  writable st = true ->
  r_id rec = Some i ->
  emails_file (update_email_record i decision (save_email_record rec st))
  = Stored (if existsb (fun x => id_is x i) (kept_records st)
            then mark_first i decision (kept_records st) ++ [rec]
            else kept_records st ++ [set_needs rec decision])%list.
Proof.
  intros Hw Hi. unfold save_email_record, update_email_record.
  rewrite Hw. cbn [with_file emails_file writable]. rewrite Hw.
  cbn [with_file emails_file]. fold (kept_records st). f_equal.
  assert (Hr : id_is rec i = true).
  { unfold id_is. rewrite Hi. apply String.eqb_refl. }
  induction (kept_records st) as [|x tl IH]; simpl.
  - now rewrite Hr.
  - destruct (id_is x i); simpl; [reflexivity|].
    rewrite IH. now destruct (existsb (fun y => id_is y i) tl).
Qed.

(* ------------------------------------------------------------------ *)
(** ** The attribution line, and more indicators *)

Lemma go_Any_cons (A : Type) c tl cs (k : cont A) :
  go no_flags A Any (String c tl) cs k
  = if any_hit no_flags c then k tl cs else None.
Proof. reflexivity. Qed.

Lemma star_any_finds (A : Type) (k : cont A) cs p rest :
  has_char nl p = false ->
  (exists r, k rest cs = Some r) ->
  forall fuel,
    String.length (p ++ rest) <= fuel ->
    exists r, star_loop A (go no_flags A Any) true k fuel (p ++ rest) cs
              = Some r.
Proof.
  intros Hp Hk. induction p as [|c p IH]; intros fuel Hf.
  - cbn [append] in *. destruct fuel as [|fuel]; cbn [star_loop]; [exact Hk|].
    destruct Hk as (r & Hk). rewrite Hk.
    destruct (go no_flags A Any rest cs _); eexists; reflexivity.
  - cbn [has_char] in Hp. apply orb_false_iff in Hp. destruct Hp as [Hc Hp].
    destruct fuel as [|fuel]; [simpl in Hf; lia|].
    cbn [append star_loop].
    assert (Hn : any_hit no_flags c = true).
    { unfold any_hit. cbn [dotall no_flags orb].
      destruct (code c =? 10) eqn:E; [|reflexivity].
      apply Nat.eqb_eq in E. exfalso.
      assert (c = nl).
      { unfold nl. rewrite <- E. unfold code. now rewrite ascii_nat_embedding. }
      subst c. discriminate. }
    rewrite go_Any_cons, Hn.
    replace (String.length (p ++ rest) <? String.length (String c (p ++ rest)))
      with true by (symmetry; apply Nat.ltb_lt; simpl; lia).
    destruct (IH Hp fuel ltac:(simpl in Hf; lia)) as (r & Hr).
    rewrite Hr. eexists. reflexivity.
Qed.

Lemma match_attribution_line who rest :
  has_char nl who = false ->
  exists s' cs,
    match_at no_flags quote_re false
             (String nl ("On " ++ who ++ " wrote:" ++ String nl rest))
    = Some (s', cs).
Proof.
  intros Hw. unfold match_at, quote_re, Cat, Plus.
  cbn [fold_right go append Lit].
  replace (chr_eq no_flags nl nl) with true by reflexivity.
  replace (chr_eq no_flags "_" "O") with false by reflexivity.
  replace (chr_eq no_flags "O" "O") with true by reflexivity.
  replace (chr_eq no_flags "n" "n") with true by reflexivity.
  replace (chr_eq no_flags " " " ") with true by reflexivity.
  cbn [orelse].
  match goal with
  | |- exists s' cs, star_loop ?A ?body true ?k ?fu ?inp ?cs0 = _ =>
      assert (Hx : exists r, star_loop A body true k fu inp cs0 = Some r)
  end.
  { apply (star_any_finds _ _ _ who (" wrote:" ++ String nl rest) Hw);
      [|apply Nat.le_refl].
    eexists. cbn [append go].
    replace (chr_eq no_flags " " " ") with true by reflexivity.
    replace (chr_eq no_flags "w" "w") with true by reflexivity.
    replace (chr_eq no_flags "r" "r") with true by reflexivity.
    replace (chr_eq no_flags "o" "o") with true by reflexivity.
    replace (chr_eq no_flags "t" "t") with true by reflexivity.
    replace (chr_eq no_flags "e" "e") with true by reflexivity.
    replace (chr_eq no_flags ":" ":") with true by reflexivity.
    replace (chr_eq no_flags nl nl) with true by reflexivity.
    reflexivity. }
  destruct Hx as ([s' cs] & Hx). exists s', cs. exact Hx.
Qed.

Section Attribution.
Context {L : PyLib}.

(** X18.  A plain reply above a line [On ... wrote:]: the text from that line
    on is dropped, and the clean reply is the line above it, trimmed. *)
Theorem reply_above_attribution (payload : part) (bp : bodies)
        (reply who rest : string) :
  payload_bodies payload = inr bp ->
  html bp = "" ->
  plain bp = reply ++ String nl ("On " ++ who ++ " wrote:" ++ String nl rest) ->
  has_char nl reply = false ->
  has_char nl who = false ->
  strip reply <> "" ->
  extract_latest_reply payload = inr (plain bp, strip reply).
Proof.
  intros E Hh Hp Hn Hw Hs. unfold extract_latest_reply. rewrite E. py_simpl.
  unfold strip_quoted. rewrite Hh. cbn [truthy str_or].
  assert (Tp : truthy (plain bp) = true).
  { rewrite Hp. destruct reply; reflexivity. }
  assert (Hq : split1_head no_flags quote_re (plain bp) = reply).
  { rewrite Hp. unfold split1_head, search.
    destruct (match_attribution_line who rest Hw) as (s' & cs & M).
    now rewrite (search_quote_skip _ _ _ _ Hn M). }
  assert (Ts : truthy (strip reply) = true).
  { destruct (strip reply); [contradiction | reflexivity]. }
  rewrite Tp, Hq, Ts. cbn [negb andb]. unfold str_or. now rewrite Ts.
Qed.
End Attribution.

Lemma max_of_ge_init i l : (i <= max_of i l)%Z.
Proof.
  unfold max_of. revert i. induction l as [|x l IH]; intros i; simpl; [lia|].
  etransitivity; [|apply IH]. lia.
Qed.

Lemma max_of_app i l ex : (max_of i l <= max_of i (l ++ ex))%Z.
Proof.
  unfold max_of. rewrite fold_left_app. apply max_of_ge_init.
Qed.

Lemma fraction_le pos pos' len :
  (pos <= pos')%Z ->
  (inject_Z pos / inject_Z (Z.max len 1)
   <= inject_Z pos' / inject_Z (Z.max len 1))%Q.
Proof.
  intros H. unfold Qdiv. apply Qmult_le_compat_r.
  - now rewrite <- Zle_Qle.
  - apply Qinv_le_0_compat. replace 0%Q with (inject_Z 0) by reflexivity.
    rewrite <- Zle_Qle. lia.
Qed.

(** X13.  More indicators never move the stamp towards the start: with
    indicators added to the configured ones, the position is the same or
    a later one in the order none, header, body, footer. *)
Theorem more_indicators_later_stamp (cfg cfg' : rules) (extra : list string)
        (text_body : option string) :
  footer_indicators cfg' = (footer_indicators cfg ++ extra)%list ->
  bucket_rank (stamp_position cfg text_body)
  <= bucket_rank (stamp_position cfg' text_body).
Proof.
  intros E. unfold stamp_position. rewrite E, filter_app, map_app.
  set (t := lower (or_empty text_body)).
  set (idxs := map (fun ind => rfind t (lower ind))
                   (filter (fun ind => contains (lower ind) t)
                           (footer_indicators cfg))).
  set (more := map (fun ind => rfind t (lower ind))
                   (filter (fun ind => contains (lower ind) t) extra)).
  destruct idxs as [|i tl]; [cbn [bucket_rank]; lia|].
  cbn [app].
  pose proof (fraction_le _ _ (Z.of_nat (String.length t))
                          (max_of_app i tl more)) as Hle.
  set (f := (inject_Z (max_of i tl)
             / inject_Z (Z.max (Z.of_nat (String.length t)) 1))%Q) in *.
  set (f' := (inject_Z (max_of i (tl ++ more))
              / inject_Z (Z.max (Z.of_nat (String.length t)) 1))%Q) in *.
  assert (M : forall a, Qltb f' a = true -> Qltb f a = true).
  { intros a H. apply Qltb_lt in H. apply Qltb_lt.
    eapply Qle_lt_trans; eassumption. }
  destruct (Qltb f' (2 # 10)) eqn:A'.
  - rewrite (M _ A'). cbn. lia.
  - destruct (Qltb f' (7 # 10)) eqn:B'.
    + rewrite (M _ B'). destruct (Qltb f (2 # 10)); cbn; lia.
    + destruct (Qltb f (2 # 10)); [cbn; lia|].
      destruct (Qltb f (7 # 10)); cbn; lia.
Qed.

(* ------------------------------------------------------------------ *)
(** ** How the tokens of the rules are compared *)

Lemma startswith_split h w : startswith h w = true -> exists q, h = w ++ q.
Proof.
  revert h. induction w as [|a w IH]; intros h H.
  - exists h. reflexivity.
  - destruct h as [|b h]; [discriminate|]. cbn [startswith] in H.
    apply andb_prop in H. destruct H as [E H]. apply Ascii.eqb_eq in E.
    subst b. destruct (IH h H) as (q & ->). exists q. reflexivity.
Qed.

Lemma contains_split w h :
  contains w h = true -> exists p q, h = p ++ w ++ q.
Proof.
  induction h as [|c h IH]; cbn [contains]; intros H.
  - rewrite orb_false_r in H. apply startswith_split in H.
    destruct H as (q & ->). exists "", q. reflexivity.
  - apply orb_prop in H. destruct H as [H|H].
    + apply startswith_split in H. destruct H as (q & ->).
      exists "", q. reflexivity.
    + destruct (IH H) as (p & q & ->). exists (String c p), q. reflexivity.
Qed.

Lemma contains_empty s : contains "" s = true.
Proof. destruct s; reflexivity. Qed.

Lemma lower_app a b : lower (a ++ b) = lower a ++ lower b.
Proof. induction a as [|c a IH]; simpl; [reflexivity | now rewrite IH]. Qed.

Lemma length_lower s : String.length (lower s) = String.length s.
Proof. induction s as [|c s IH]; simpl; [reflexivity | now rewrite IH]. Qed.

Lemma append_inj_length a a' b b' :
  String.length a = String.length a' ->
  a ++ b = a' ++ b' -> a = a' /\ b = b'.
Proof.
  revert a'. induction a as [|c a IH]; intros [|c' a'] Hl H;
    simpl in *; try discriminate.
  - split; [reflexivity | exact H].
  - injection H as -> H. injection Hl as Hl.
    destruct (IH a' Hl H) as [-> ->]. split; reflexivity.
Qed.

(** A piece of a text in lower case is in lower case. *)
Lemma lower_piece p w q :
  lower (p ++ w ++ q) = p ++ w ++ q -> lower w = w.
Proof.
  rewrite !lower_app. intros H.
  apply append_inj_length in H; [|apply length_lower].
  destruct H as [_ H].
  apply append_inj_length in H; [|apply length_lower]. tauto.
Qed.

Lemma drop_app_length p s : drop (String.length p) (p ++ s) = s.
Proof.
  unfold drop. rewrite length_append.
  replace (String.length p + String.length s - String.length p)
    with (String.length s) by lia.
  induction p as [|c p IH]; simpl; [|exact IH].
  rewrite <- (append_nil_r s) at 2. apply substring_prefix.
Qed.

Lemma split_at n s :
  n <= String.length s -> substring 0 n s ++ drop n s = s.
Proof.
  revert s. induction n as [|n IH]; intros s H.
  - rewrite drop_zero. destruct s; reflexivity.
  - destruct s as [|c s]; [simpl in H; lia|].
    rewrite drop_cons. simpl. rewrite IH; [reflexivity | simpl in H; lia].
Qed.

(** [endswith] is the plain suffix test. *)
Lemma endswith_spec s sfx :
  endswith s sfx = true <-> exists p, s = p ++ sfx.
Proof.
  unfold endswith. split.
  - intros H. apply andb_prop in H. destruct H as [Hl He].
    apply Nat.leb_le in Hl. apply String.eqb_eq in He.
    exists (substring 0 (String.length s - String.length sfx) s).
    transitivity (substring 0 (String.length s - String.length sfx) s
                  ++ drop (String.length s - String.length sfx) s).
    + symmetry. apply split_at. lia.
    + now rewrite He.
  - intros (p & ->). rewrite length_append.
    replace (String.length p + String.length sfx - String.length sfx)
      with (String.length p) by lia.
    rewrite drop_app_length, String.eqb_refl.
    replace (String.length sfx <=? String.length p + String.length sfx)
      with true by (symmetry; apply Nat.leb_le; lia).
    reflexivity.
Qed.

Lemma hosts_lower {L : PyLib} urls :
  Forall (fun h => lower h = h) (hosts urls).
Proof.
  induction urls as [|u tl IH]; simpl; [constructor|].
  destruct (url_hostname u) as [h|]; [|exact IH].
  destruct (truthy h); [|exact IH].
  constructor; [apply lower_idem | exact IH].
Qed.

Section Tokens.
Context {L : PyLib}.

(** X8.  The domain channel tests a suffix of the text, not of the labels:
    it hits exactly when the lowercased domain of the sender is some
    text followed by a configured suffix, so the suffix [jbhunt.com]
    also grants the weight to a sender at [notjbhunt.com]. *)
Theorem domain_evidence_is_text_suffix (cfg : rules) (e : email)
        (sfx : string) :
  In sfx (domain_hits cfg e)
  <-> In sfx (from_domains cfg)
      /\ exists before, sender_domain e = Some (before ++ sfx)
                        /\ before ++ sfx <> "".
Proof.
  unfold domain_hits.
  destruct (sender_domain e) as [d|]; [|split; [intros [] | intros (_ & b & [=] & _)]].
  destruct (truthy d) eqn:T.
  - rewrite filter_In, endswith_spec. split.
    + intros (Hin & p & ->). split; [exact Hin|]. exists p.
      split; [reflexivity|]. intros E. rewrite E in T. discriminate.
    + intros (Hin & p & [= ->] & _). split; [exact Hin|]. now exists p.
  - apply truthy_false in T. subst d. split; [intros []|].
    intros (_ & b & [= E] & Hne). congruence.
Qed.

(** X10.  A configured token that is the empty string matches every email: in
    the sender-name channel and in the phrase channel it grants the
    weight whatever the header and the body, absent ones included. *)
Theorem empty_token_always_hits (cfg : rules) (e : email) :
  (In "" (sender_names_contains cfg) -> In "" (name_hits cfg e))
  /\ (In "" (body_phrases cfg) -> In "" (phrase_hits cfg e)).
Proof.
  unfold name_hits, phrase_hits. split; intros H; apply filter_In;
    (split; [exact H|]); cbn [lower]; apply contains_empty.
Qed.

(** X9.  The header's domain and the hosts are lowercased and the configured
    suffixes and host tokens are not, so a suffix or a host token with
    an upper-case letter never matches: every one that hits is in lower
    case. *)
Theorem only_lowercase_tokens_hit (cfg : rules) (e : email) :
  Forall (fun sfx => lower sfx = sfx) (domain_hits cfg e)
  /\ Forall (fun ht => lower (snd ht) = snd ht) (host_hits cfg e).
Proof.
  split.
  - unfold domain_hits, sender_domain.
    destruct (search no_flags from_re (or_empty (e_from e))) as [h|];
      [|constructor].
    destruct (truthy _); [|constructor].
    apply Forall_forall. intros sfx H. apply filter_In in H.
    destruct H as [_ H]. apply endswith_spec in H. destruct H as (p & E).
    apply (lower_piece p sfx ""). rewrite append_nil_r, <- E. apply lower_idem.
  - unfold host_hits. apply Forall_forall. intros [h tok] H.
    apply in_flat_map in H. destruct H as (h' & Hh & H).
    apply in_map_iff in H. destruct H as (tok' & [= <- <-] & H).
    apply filter_In in H. destruct H as [_ H]. cbn [snd].
    apply contains_split in H. destruct H as (p & q & E).
    apply (lower_piece p tok' q). rewrite <- E.
    pose proof (hosts_lower (find_urls (or_empty (e_original_body e)))) as Hl.
    rewrite Forall_forall in Hl. now apply Hl.
Qed.
End Tokens.

(* ------------------------------------------------------------------ *)
(** ** Runs on the sample inputs, with the executable library *)

Import Ref.

(** The normalizer is not idempotent on a text that holds character
    references: the references decoded by the first pass are markup for
    the second. *)
Lemma strip_html_not_idempotent :
  strip_html "&lt;b&gt;" = "<b>"
  /\ strip_html (strip_html "&lt;b&gt;") = ""
  /\ strip_html (strip_html "&lt;b&gt;") <> strip_html "&lt;b&gt;".
Proof.
  split; [vm_compute; reflexivity|]. split; [vm_compute; reflexivity|].
  vm_compute. discriminate.
Qed.

Lemma strip_html_idempotent_witness :
  contains "<" (strip_html "<p>Hello   <b>World</b></p>") = false
  /\ contains "&" (strip_html "<p>Hello   <b>World</b></p>") = false
  /\ strip_html (strip_html "<p>Hello   <b>World</b></p>")
     = strip_html "<p>Hello   <b>World</b></p>".
Proof.
  split; [vm_compute; reflexivity|]. split; [vm_compute; reflexivity|].
  apply strip_html_idempotent_when_plain; vm_compute; reflexivity.
Defined.

Lemma score_is_sum_of_channels_witness :
  domain_hits vendor_rules domain_only_mail <> []
  /\ name_hits vendor_rules domain_only_mail = []
  /\ host_hits vendor_rules domain_only_mail = []
  /\ phrase_hits vendor_rules domain_only_mail = []
  /\ jbhunt_score vendor_rules domain_only_mail = 3%Z.
Proof.
  assert (Hd : domain_hits vendor_rules domain_only_mail <> [])
    by (vm_compute; discriminate).
  assert (Hn : name_hits vendor_rules domain_only_mail = [])
    by (vm_compute; reflexivity).
  assert (Hh : host_hits vendor_rules domain_only_mail = [])
    by (vm_compute; reflexivity).
  assert (Hp : phrase_hits vendor_rules domain_only_mail = [])
    by (vm_compute; reflexivity).
  split; [exact Hd|]. split; [exact Hn|]. split; [exact Hh|].
  split; [exact Hp|].
  destruct (score_is_sum_of_channels vendor_rules domain_only_mail)
    as (_ & _ & _ & H).
  exact (H Hd Hn Hh Hp).
Defined.

Lemma subject_category_first_match_witness :
  wins "tender update #12" ("UPDATE", Lit "update") = true
  /\ wins "tender update #12" ("TENDER", Lit "tender") = true
  /\ forallb (fun kp => negb (wins "tender update #12" kp))
             [("ID_PATTERN", hash_digits)] = true
  /\ subject_category vendor_rules (Some "Tender UPDATE #12") = "UPDATE".
Proof.
  split; [vm_compute; reflexivity|]. split; [vm_compute; reflexivity|].
  split; [vm_compute; reflexivity|].
  destruct (subject_category_first_match vendor_rules
              (Some "Tender UPDATE #12")) as (_ & H & _).
  apply (H [("ID_PATTERN", hash_digits)] "UPDATE" (Lit "update")
           [("TENDER", Lit "tender")]); vm_compute; reflexivity.
Defined.

Lemma extract_load_ids_findall_witness :
  dict_get "ID_PATTERN" (subject_patterns (id_rules hash_digits))
  = inr hash_digits
  /\ exists hs tail,
      extract_load_ids (id_rules hash_digits) (Some "Load #123 and #456")
      = inr (map (item_of hash_digits) hs)
      /\ chain no_flags hash_digits false "Load #123 and #456" hs tail
      /\ Forall (first_match no_flags hash_digits) hs.
Proof.
  split; [reflexivity|].
  destruct extract_load_ids_findall as [H _].
  destruct (H (id_rules hash_digits) (Some "Load #123 and #456")
              hash_digits eq_refl) as (hs & tl & H1 & H2 & _ & H4 & _).
  exists hs, tl. split; [exact H1|]. split; [exact H2 | exact H4].
Defined.

Lemma stamp_position_buckets_witness :
  (7 # 10 <= inject_Z 95 / inject_Z (Z.max 100 1))%Q
  /\ stamp_position (stamp_rules "STAMP") (Some (stamped_text 95 0))
     = Some "footer".
Proof.
  split; [vm_compute; discriminate|].
  destruct (stamp_position_buckets (stamp_rules "STAMP")
              (Some (stamped_text 95 0))) as (_ & _ & H & _).
  destruct H as (pos & Hin & _ & _ & _ & Hf); [vm_compute; discriminate|].
  vm_compute in Hin. destruct Hin as [<-|[]].
  apply Hf. vm_compute. discriminate.
Defined.

Lemma reply_necessity_precedence_witness :
  dict_get "ID_PATTERN" (subject_patterns vendor_rules) = inr hash_digits
  /\ mem "UPDATE" (reply_true_if vendor_rules) = true
  /\ mem "UPDATE" (reply_false_if vendor_rules) = true
  /\ exists r,
      classify vendor_rules domain_only_mail = inr r
      /\ c_subject_category r = "UPDATE"
      /\ needs_response_pred r = Some true.
Proof.
  split; [reflexivity|]. split; [reflexivity|]. split; [reflexivity|].
  destruct (reply_necessity_precedence vendor_rules domain_only_mail
              hash_digits eq_refl) as (r & Hc & Hcat & _ & Ht & _).
  assert (E : c_subject_category r = "UPDATE")
    by (rewrite Hcat; vm_compute; reflexivity).
  exists r. split; [exact Hc|]. split; [exact E|].
  apply Ht. rewrite E. reflexivity.
Defined.

Lemma rfc822_fills_plain_once_witness :
  truthy "SGVsbG8" = true
  /\ exists result,
      visit_part no_bodies forwarded_part = inr result
      /\ plain result = "Hello".
Proof.
  split; [reflexivity|].
  destruct (rfc822_fills_plain_once no_bodies "SGVsbG8" None eq_refl)
    as (b1 & dec & res & H1 & Hd & Hv & Hr & _).
  subst b1. vm_compute in Hd. injection Hd as <-.
  exists res. split; [exact Hv|]. rewrite Hr. reflexivity.
Defined.

(** Cleaning the plain text [\n_\nold] leaves nothing, the plain text
    exists, and the clean reply is that text without its first newline:
    not the raw plain content. *)
Lemma clean_reply_is_not_raw_plain :
  payload_bodies quoted_only_payload
  = inr {| plain := quoted_only_text; html := "" |}
  /\ strip_quoted {| plain := quoted_only_text; html := "" |} = ""
  /\ quoted_only_text <> ""
  /\ extract_latest_reply quoted_only_payload
     = inr (quoted_only_text, "_" ++ String nl "old")
  /\ "_" ++ String nl "old" <> quoted_only_text.
Proof.
  split; [vm_compute; reflexivity|]. split; [vm_compute; reflexivity|].
  split; [discriminate|]. split; [vm_compute; reflexivity|].
  vm_compute. discriminate.
Qed.

(** All four channels at once, each counted once. *)
Example vendor_mail_classified :
  jbhunt_score vendor_rules vendor_mail = 8%Z
  /\ exists r,
      classify vendor_rules vendor_mail = inr r
      /\ is_jbhunt r = true
      /\ c_subject_category r = "TENDER"
      /\ load_ids r = [Str "123"; Str "456"]
      /\ needs_response_pred r = Some true.
Proof.
  split; [vm_compute; reflexivity|].
  eexists. split; [vm_compute; reflexivity|]. repeat split.
Qed.

(** *** Runs of the further properties *)

Lemma find_urls_trimmed_distinct_witness :
  In "http://a.com/x." (findall1 flag_i url_re "see http://a.com/x. twice: http://a.com/x")
  /\ In "http://a.com/x" (find_urls "see http://a.com/x. twice: http://a.com/x").
Proof.
  assert (H : In "http://a.com/x."
                 (findall1 flag_i url_re
                           "see http://a.com/x. twice: http://a.com/x"))
    by (vm_compute; left; reflexivity).
  split; [exact H|].
  destruct (find_urls_trimmed_distinct
              "see http://a.com/x. twice: http://a.com/x") as (_ & _ & Hi).
  apply (proj2 (Hi "http://a.com/x")). exists "http://a.com/x.".
  split; [right; exact H | reflexivity].
Defined.

Lemma hosts_lowercase_nonempty_witness :
  url_hostname "mailto:bob" = None
  /\ hosts ["http://A.com/x"; "mailto:bob"]
     = hosts (filter (fun v => negb (String.eqb v "mailto:bob"))
                     ["http://A.com/x"; "mailto:bob"]).
Proof.
  split; [reflexivity|].
  destruct (hosts_lowercase_nonempty ["http://A.com/x"; "mailto:bob"])
    as (_ & _ & H).
  apply H. left. reflexivity.
Defined.

Lemma strip_html_whitespace_shape_witness :
  has_char " " (strip_html "<p>a</p>  b") = true
  /\ is_space " " = true
  /\ " "%char = " "%char.
Proof.
  assert (H1 : has_char " " (strip_html "<p>a</p>  b") = true)
    by (vm_compute; reflexivity).
  split; [exact H1|]. split; [reflexivity|].
  destruct (strip_html_whitespace_shape "<p>a</p>  b") as (H & _).
  exact (H " "%char H1 eq_refl).
Defined.

Lemma strip_html_plain_text_witness :
  contains "<" "  Hello   world " = false
  /\ contains "&" "  Hello   world " = false
  /\ strip_html "  Hello   world " = strip (squeeze false "  Hello   world ").
Proof.
  split; [reflexivity|]. split; [reflexivity|].
  apply strip_html_plain_text; reflexivity.
Defined.

Lemma score_bounds_witness :
  (0 <= jbhunt_score vendor_rules vendor_mail <= 8)%Z.
Proof.
  destruct (score_bounds vendor_rules vendor_mail) as (H & _);
    [simpl; lia | simpl; lia | simpl; lia | simpl; lia|].
  exact H.
Defined.

Lemma stamp_position_ignores_case_witness :
  footer_indicators (stamp_rules "stamp")
  = map lower (footer_indicators (stamp_rules "STAMP"))
  /\ stamp_position (stamp_rules "stamp") (Some (stamped_text 50 45))
     = stamp_position (stamp_rules "STAMP") (Some (stamped_text 50 45)).
Proof.
  split; [reflexivity|].
  destruct (stamp_position_ignores_case (stamp_rules "STAMP")
              (stamp_rules "stamp") (stamped_text 50 45) eq_refl) as [_ H].
  exact H.
Defined.

Lemma more_indicators_later_stamp_witness :
  footer_indicators (stamp_rules "stamp")
  = (footer_indicators (id_rules hash_digits) ++ ["stamp"])%list
  /\ bucket_rank (stamp_position (id_rules hash_digits)
                                 (Some (stamped_text 50 45)))
     <= bucket_rank (stamp_position (stamp_rules "stamp")
                                    (Some (stamped_text 50 45))).
Proof.
  split; [reflexivity|].
  apply (more_indicators_later_stamp (id_rules hash_digits)
           (stamp_rules "stamp") ["stamp"]). reflexivity.
Defined.

Lemma find_email_parts_earlier_parts_win_witness :
  exists b,
    find_email_parts [hello_part; world_part] = inr b
    /\ plain b = "Hello".
Proof.
  destruct (find_email_parts_earlier_parts_win [hello_part] [world_part])
    as (b1 & b & E1 & E & _ & Hp & _).
  vm_compute in E1. injection E1 as <-.
  exists b. split; [exact E|]. apply Hp. discriminate.
Defined.

Lemma find_email_parts_sources_witness :
  (forall mt d sub, in_forest [hollow_part] (Part mt (Some d) sub) -> d = "")
  /\ find_email_parts [hollow_part] = inr no_bodies.
Proof.
  assert (H : forall mt d sub,
             in_forest [hollow_part] (Part mt (Some d) sub) -> d = "").
  { intros mt d sub (p & [<-|[]] & Ht). inversion Ht as [|? ? ? q Hq Hq']; subst.
    destruct Hq as [<-|[]]. inversion Hq'. }
  split; [exact H|].
  destruct (find_email_parts_sources [hollow_part]) as (b & E & _ & _ & Hn).
  rewrite E. f_equal. apply Hn. exact H.
Defined.

Lemma one_line_reply_is_kept_witness :
  payload_bodies hello_part = inr {| plain := "Hello"; html := "" |}
  /\ has_char nl "Hello" = false
  /\ extract_latest_reply hello_part = inr ("Hello", "Hello").
Proof.
  split; [vm_compute; reflexivity|]. split; [reflexivity|].
  apply (one_line_reply_is_kept hello_part {| plain := "Hello"; html := "" |});
    vm_compute; reflexivity.
Defined.

Lemma reply_above_underscores_witness :
  payload_bodies underscored_payload
  = inr {| plain := underscored_text; html := "" |}
  /\ has_char nl "Reply text" = false
  /\ strip "Reply text" <> ""
  /\ extract_latest_reply underscored_payload
     = inr (underscored_text, "Reply text").
Proof.
  split; [vm_compute; reflexivity|]. split; [reflexivity|].
  split; [vm_compute; discriminate|].
  apply (reply_above_underscores underscored_payload
           {| plain := underscored_text; html := "" |}
           "Reply text" "Original message" 7);
    try (vm_compute; reflexivity).
  vm_compute. discriminate.
Defined.

Lemma reply_above_attribution_witness :
  payload_bodies attributed_payload
  = inr {| plain := attributed_text; html := "" |}
  /\ has_char nl "Thanks, will do." = false
  /\ has_char nl "Mon, Jan 1 Bob" = false
  /\ extract_latest_reply attributed_payload
     = inr (attributed_text, "Thanks, will do.").
Proof.
  split; [vm_compute; reflexivity|]. split; [reflexivity|].
  split; [reflexivity|].
  apply (reply_above_attribution attributed_payload
           {| plain := attributed_text; html := "" |}
           "Thanks, will do." "Mon, Jan 1 Bob" "old text");
    try (vm_compute; reflexivity).
  vm_compute. discriminate.
Defined.

Lemma message_body_bounded_witness :
  3800 < String.length (format_body_for_telegram (replicate 4000 "a"))
  /\ String.length (message_body (replicate 4000 "a")) = 3828.
Proof.
  assert (H : 3800 < String.length
                       (format_body_for_telegram (replicate 4000 "a")))
    by (vm_compute; apply Nat.leb_le; vm_compute; reflexivity).
  split; [exact H|].
  destruct (message_body_bounded (replicate 4000 "a")) as (_ & _ & Hl).
  exact (proj1 (Hl H)).
Defined.

Lemma update_marks_first_match_witness :
  id_is (mail_record "a") "a" = true
  /\ exists data',
      emails_file
        (update_email_record "a" true
           (store_of (Stored [mail_record "b"; mail_record "a";
                              mail_record "a"])))
      = Stored data'
      /\ data' = [mail_record "b"; set_needs (mail_record "a") true;
                  mail_record "a"].
Proof.
  split; [reflexivity|].
  destruct (update_marks_first_match "a" true
              (store_of (Stored [mail_record "b"; mail_record "a";
                                 mail_record "a"])))
    as (_ & _ & _ & data' & E & _ & Hhit & _).
  exists data'. split; [exact E|].
  apply (Hhit [mail_record "b"] (mail_record "a") [mail_record "a"]);
    reflexivity.
Defined.

Lemma saved_record_is_loaded_witness :
  writable (store_of Corrupt) = true
  /\ r_id (mail_record "m1") = Some "m1"
  /\ emails_file (load_processed_emails
                    (save_email_record (mail_record "m1") (store_of Corrupt)))
     = Stored [mail_record "m1"]
  /\ In "m1" (processed_ids
                (load_processed_emails
                   (save_email_record (mail_record "m1") (store_of Corrupt)))).
Proof.
  split; [reflexivity|]. split; [reflexivity|].
  destruct (saved_record_is_loaded (mail_record "m1") (store_of Corrupt) "m1"
              eq_refl eq_refl) as (H1 & _ & H3).
  split; [exact H1 | exact H3].
Defined.

Lemma decision_after_save_witness :
  writable (store_of (Stored [mail_record "a"])) = true
  /\ emails_file
       (update_email_record "a" false
          (save_email_record (mail_record "a")
                             (store_of (Stored [mail_record "a"]))))
     = Stored [set_needs (mail_record "a") false; mail_record "a"].
Proof.
  split; [reflexivity|].
  exact (decision_after_save (mail_record "a")
           (store_of (Stored [mail_record "a"])) "a" false eq_refl eq_refl).
Defined.

Lemma domain_evidence_is_text_suffix_witness :
  sender_domain lookalike_mail = Some ("not" ++ "jbhunt.com")
  /\ In "jbhunt.com" (domain_hits vendor_rules lookalike_mail).
Proof.
  split; [vm_compute; reflexivity|].
  apply (proj2 (domain_evidence_is_text_suffix vendor_rules lookalike_mail
                  "jbhunt.com")).
  split; [left; reflexivity|]. exists "not".
  split; [vm_compute; reflexivity | discriminate].
Defined.

Lemma empty_token_always_hits_witness :
  In "" (sender_names_contains blank_name_rules)
  /\ In "" (name_hits blank_name_rules bare_mail).
Proof.
  assert (H : In "" (sender_names_contains blank_name_rules))
    by (left; reflexivity).
  split; [exact H|].
  exact (proj1 (empty_token_always_hits blank_name_rules bare_mail) H).
Defined.
